(** * ansible-playbook listing: [lib/ansible/cli/playbook.py]

    A shallow embedding of the listing part of [PlaybookCLI.run]
    (--list-tasks, --list-tasks-with-path, --list-tasks-json, --list-tags,
    --list-hosts), of [CLIEncoder.default] and of [remove_nulls], with the
    properties of the listing stated and proved over it.

    Python values are modelled as follows:
    - [str] is [string]; [list] is [list];
    - a [set] of strings is the list of its elements in the order in which
      iterating it yields them.  That order is fixed by the interpreter's
      string hashing, so it is a parameter of the model ([HashSeed]);
    - an exception is a value of [exn], a call that may raise returns
      [result];
    - [display.display] appends one message to the output. *)

From Stdlib Require Import List String Ascii Bool Arith ZArith Lia.
From Stdlib Require Import Permutation Sorted DecimalString.
Import ListNotations.
Open Scope string_scope.
Open Scope list_scope.

Set Implicit Arguments.
#[local] Set Warnings "-register-all".

(** ** Strings *)

Module PyStr.

Definition nl : string := String (ascii_of_nat 10) EmptyString.
Definition tab : string := String (ascii_of_nat 9) EmptyString.

(** ["%d" % n] for a non-negative [n]. *)
Definition of_nat (n : nat) : string :=
  NilEmpty.string_of_uint (Nat.to_uint n).

(** [sep.join(l)] *)
Definition join (sep : string) (l : list string) : string :=
  String.concat sep l.

(** Truth value of a string that may be [None]. *)
Definition truthy (s : option string) : bool :=
  match s with
  | Some (String _ _) => true
  | _ => false
  end.

(** Order of [str] values, character by character. *)
Definition le (a b : string) : Prop := String.leb a b = true.

End PyStr.

(** ** [list.sort()] on strings *)

Module PySort.

Fixpoint insert (x : string) (l : list string) : list string :=
  match l with
  | [] => [x]
  | y :: r => if String.leb x y then x :: l else y :: insert x r
  end.

Fixpoint sort (l : list string) : list string :=
  match l with
  | [] => []
  | x :: r => insert x (sort r)
  end.

End PySort.

(** ** Sets of strings and their iteration order *)

(** The iteration order of a set built from the elements of [l].  Python
    promises only that every element comes once. *)
Record HashSeed : Type := {
  set_iter : list string -> list string;
  set_iter_NoDup : forall l, NoDup (set_iter l);
  set_iter_In : forall l x, In x (set_iter l) <-> In x l
}.

Module PySet.
Section WithSeed.
Variable seed : HashSeed.

Definition t := list string.

(** [set(l)] *)
Definition of_list (l : list string) : t := set_iter seed l.
(** [set()] *)
Definition empty : t := of_list [].
(** [s.union(u)] *)
Definition union (s u : t) : t := set_iter seed (s ++ u).
(** [s.update(l)] *)
Definition update (s : t) (l : list string) : t := set_iter seed (s ++ l).
(** [list(s)] *)
Definition to_list (s : t) : list string := s.
End WithSeed.
End PySet.

Definition seed_insertion : HashSeed := {|
  set_iter := nodup string_dec;
  set_iter_NoDup := NoDup_nodup string_dec;
  set_iter_In := nodup_In string_dec
|}.

Definition seed_reversed : HashSeed := {|
  set_iter := fun l => rev (nodup string_dec l);
  set_iter_NoDup := fun l => NoDup_rev (NoDup_nodup string_dec l);
  set_iter_In := fun l x =>
    iff_trans (iff_sym (in_rev (nodup string_dec l) x)) (nodup_In string_dec l x)
|}.

(** ** Exceptions *)

Inductive exn : Type :=
| AnsibleError (msg : string)
| AttributeError
| RecursionError.

Inductive result (A : Type) : Type :=
| Ok (a : A)
| Raise (e : exn).
Arguments Ok {A} a.
Arguments Raise {A} e.

Definition bind {A B : Type} (r : result A) (k : A -> result B) : result B :=
  match r with
  | Ok a => k a
  | Raise e => Raise e
  end.

Declare Scope result_scope.
Delimit Scope result_scope with result.
Notation "x <- r ;; k" := (bind r (fun x => k))
  (at level 100, r at next level, right associativity) : result_scope.
Open Scope result_scope.

Fixpoint mapM {A B : Type} (f : A -> result B) (l : list A) : result (list B) :=
  match l with
  | [] => Ok []
  | a :: r => b <- f a ;; bs <- mapM f r ;; Ok (b :: bs)
  end.

(** ** The compiled playbook: plays, blocks and tasks *)

(** What the listing reads of a task: [task.action], [task.name],
    [task.get_name()], [task.tags] and [task.get_path()]. *)
Record Task : Type := {
  action : string;
  name : option string;
  get_name : string;
  tags : list string;
  get_path : string
}.

(** A block: its own [tags], and [block], the ordered list of its items.
    An item is a task or a nested block, the two cases of
    [isinstance(task, Block)].  The listing reads [block] only. *)
Inductive Block : Type :=
| mkBlock (block_tags : list string) (block : list BlockItem)
with BlockItem : Type :=
| ItemTask (task : Task)
| ItemBlock (b : Block).

Definition block_tags (b : Block) : list string :=
  match b with mkBlock tg _ => tg end.

Definition block (b : Block) : list BlockItem :=
  match b with mkBlock _ items => items end.

Record Play : Type := {
  play_hosts : list string;
  play_name : string;
  play_tags : list string;
  play_get_path : string;
  compile : list Block
}.

(** One entry of the list returned by [PlaybookExecutor.run] when listing. *)
Record PlaybookEntry : Type := {
  entry_playbook : string;
  entry_plays : list Play
}.

Record Options : Type := {
  listhosts : bool;
  listtasks : bool;
  listtaskswithpath : bool;
  listtasksjson : bool;
  listtags : bool
}.

(** ** Python values seen by the JSON encoder, and JSON documents *)

(** A value handed to [json.dumps].  Keys of a [dict] are strings (the
    dicts here are the [__dict__] of an object).  [PObj r] is an object of
    a class the JSON encoder does not know: [r = Some v] when it has a
    [json_cli_repr] method, which returns [v], and [r = None] when it has
    no such attribute. *)
Inductive pyval : Type :=
| PNone
| PBool (b : bool)
| PInt (n : Z)
| PStr (s : string)
| PList (l : list pyval)
| PDict (d : list (string * pyval))
| PObj (json_cli_repr : option pyval).

Inductive json : Type :=
| JNull
| JBool (b : bool)
| JNum (n : Z)
| JStr (s : string)
| JArr (l : list json)
| JObj (d : list (string * json)).

Definition is_None (v : pyval) : bool :=
  match v with PNone => true | _ => false end.

Definition is_null (j : json) : bool :=
  match j with JNull => true | _ => false end.

(** [remove_nulls(dict)]: [dict.items()] raises AttributeError on a value
    that is neither [None] nor a dict. *)
Definition remove_nulls (dict : pyval) : result pyval :=
  match dict with
  | PNone => Ok dict
  | PDict d => Ok (PDict (filter (fun kv => negb (is_None (snd kv))) d))
  | _ => Raise AttributeError
  end.

(** [CLIEncoder.default(obj)].  [json.JSONEncoder.default] raises TypeError
    on every object it is given; the [except] clause swallows it and the
    method falls off its end, returning [None]. *)
Definition default (obj : pyval) : result pyval :=
  match obj with
  | PObj (Some repr) => remove_nulls repr
  | _ => Ok PNone
  end.

(** The encoder of [json.dumps(..., cls=CLIEncoder)]: values of the JSON
    types are encoded structurally, any other object is replaced by
    [default(obj)], which is encoded in turn.  [fuel] bounds the nesting
    depth of the calls. *)
Fixpoint iterencode (fuel : nat) (o : pyval) : result json :=
  match fuel with
  | O => Raise RecursionError
  | S fuel' =>
      match o with
      | PNone => Ok JNull
      | PBool b => Ok (JBool b)
      | PInt n => Ok (JNum n)
      | PStr s => Ok (JStr s)
      | PList l => js <- mapM (iterencode fuel') l ;; Ok (JArr js)
      | PDict d =>
          kjs <- mapM (fun kv => j <- iterencode fuel' (snd kv) ;; Ok (fst kv, j)) d ;;
          Ok (JObj kjs)
      | PObj _ => o' <- default o ;; iterencode fuel' o'
      end
  end.

(** Number of constructors of a value: enough fuel to encode it. *)
Fixpoint pysize (v : pyval) : nat :=
  match v with
  | PList l => S (fold_right (fun x n => pysize x + n) 0 l)
  | PDict d => S (fold_right (fun kv n => pysize (snd kv) + n) 0 d)
  | PObj (Some r) => S (pysize r)
  | PObj None => 2
  | _ => 1
  end.

Definition dumps (o : pyval) : result json := iterencode (pysize o) o.

(** A document has no null-valued key when no member of any of its
    objects, at any depth, has the value [null]. *)
Fixpoint no_null_keys (j : json) : bool :=
  match j with
  | JArr l => forallb no_null_keys l
  | JObj d => forallb (fun kv => negb (is_null (snd kv)) && no_null_keys (snd kv)) d
  | _ => true
  end.

(** ** The classes of --list-tasks-json *)

(** Modelled from the spec: the class TaskCliJSON is used by this file but
    not defined in it.  A task summary has a name, a list of tags and a
    path; any of them may be [None].  [json_cli_repr] returns these
    attributes as a dict. *)
Record TaskCliJSON : Type := {
  task_json_name : option string;
  task_json_tags : option (list string);
  task_json_path : option string
}.

(** Modelled from the spec: the class PlayCliJSON is used by this file but
    not defined in it.  A play summary has the host pattern, the name and
    the tags of the play, and the list of its task summaries, which
    [set_tasks] assigns. *)
Record PlayCliJSON : Type := {
  play_json_hosts : option string;
  play_json_name : option string;
  play_json_tags : option (list string);
  play_json_tasks : option (list TaskCliJSON)
}.

Definition set_tasks (p : PlayCliJSON) (task_list : list TaskCliJSON) : PlayCliJSON :=
  {| play_json_hosts := play_json_hosts p;
     play_json_name := play_json_name p;
     play_json_tags := play_json_tags p;
     play_json_tasks := Some task_list |}.

Record PlaybookCliJSON : Type := {
  playbook : string;
  plays : option (list PlayCliJSON);
  playbook_dir : string
}.

(** [PlaybookCliJSON(playbook, playbook_dir)]: the second [__init__]
    replaces the first, [plays] defaults to [None]. *)
Definition PlaybookCliJSON_init (pb dir : string) : PlaybookCliJSON :=
  {| playbook := pb; plays := None; playbook_dir := dir |}.

Definition add_play (self : PlaybookCliJSON) (play : PlayCliJSON) : PlaybookCliJSON :=
  {| playbook := playbook self;
     plays := match plays self with
              | None => Some [play]
              | Some l => Some (l ++ [play])
              end;
     playbook_dir := playbook_dir self |}.

Definition set_plays (self : PlaybookCliJSON) (play_list : list PlayCliJSON) : PlaybookCliJSON :=
  {| playbook := playbook self;
     plays := Some play_list;
     playbook_dir := playbook_dir self |}.

Definition py_opt {A : Type} (f : A -> pyval) (o : option A) : pyval :=
  match o with
  | None => PNone
  | Some a => f a
  end.

Definition py_strs (l : list string) : pyval := PList (map PStr l).

(** Modelled from the spec: [TaskCliJSON.json_cli_repr] is not part of
    this file; like [PlaybookCliJSON.json_repr] it returns the attributes
    of the object as a dict, here "name", "tags" and "path". *)
Definition TaskCliJSON_json_cli_repr (t : TaskCliJSON) : pyval :=
  PDict [("name", py_opt PStr (task_json_name t));
         ("tags", py_opt py_strs (task_json_tags t));
         ("path", py_opt PStr (task_json_path t))].

Definition py_task (t : TaskCliJSON) : pyval :=
  PObj (Some (TaskCliJSON_json_cli_repr t)).

(** Modelled from the spec: [PlayCliJSON.json_cli_repr] is not part of
    this file; it returns the attributes "hosts", "name", "tags" and
    "tasks" as a dict, the task summaries left as objects for the encoder
    to project. *)
Definition PlayCliJSON_json_cli_repr (p : PlayCliJSON) : pyval :=
  PDict [("hosts", py_opt PStr (play_json_hosts p));
         ("name", py_opt PStr (play_json_name p));
         ("tags", py_opt py_strs (play_json_tags p));
         ("tasks", py_opt (fun l => PList (map py_task l)) (play_json_tasks p))].

Definition py_play (p : PlayCliJSON) : pyval :=
  PObj (Some (PlayCliJSON_json_cli_repr p)).

(** [PlaybookCliJSON.json_repr]: [self.__dict__], in the order in which
    [__init__] assigns the attributes. *)
Definition json_repr (self : PlaybookCliJSON) : pyval :=
  PDict [("playbook", PStr (playbook self));
         ("plays", py_opt (fun l => PList (map py_play l)) (plays self));
         ("playbook_dir", PStr (playbook_dir self))].

(** ** The file system seen by the initial check *)

Inductive file_kind : Type := RegularFile | Fifo | Directory | OtherFile.

(** [os.path.isfile(p) or stat.S_ISFIFO(os.stat(p).st_mode)] *)
Definition file_or_fifo (k : file_kind) : bool :=
  match k with
  | RegularFile | Fifo => true
  | _ => false
  end.

(** What [display.display] is given: a text, or the document that
    [json.dumps(..., indent=2)] prints. *)
Inductive message : Type :=
| Text (s : string)
| JsonDoc (j : json).

(** ** [PlaybookCLI.run] *)

Section Listing.

Import PyStr.
Local Open Scope string_scope.

(** The interpreter's set order and the command line options. *)
Variable seed : HashSeed.
Variable options : Options.

(** [os.path.exists] and [os.stat]: the kind of the file a path leads to,
    [None] when there is none. *)
Variable fs : string -> option file_kind.

(** Collaborators: the constructors of the summary classes,
    [block.filter_tagged_tasks(play_context, all_vars)] for the blocks of
    a play, [block.has_tasks()], the names of
    [inventory.get_hosts(play.hosts)], Python's [str] of the host pattern
    list and [os.path.realpath(os.path.dirname(path))]. *)
Variable TaskCliJSON_init : Task -> TaskCliJSON.
Variable PlayCliJSON_init : Play -> PlayCliJSON.
Variable filter_tagged_tasks : Play -> Block -> Block.
Variable has_tasks : Block -> bool.
Variable get_hosts : list string -> list string.
Variable str_of_hosts : list string -> string.
Variable realpath_dirname : string -> string.

(** [listtasks or listtaskswithpath or listtasksjson] *)
Definition list_any_tasks : bool :=
  listtasks options || listtaskswithpath options || listtasksjson options.

(** The initial check of the playbook paths. *)
Fixpoint check_playbooks (args : list string) : result unit :=
  match args with
  | [] => Ok tt
  | playbook :: rest =>
      match fs playbook with
      | None =>
          Raise (AnsibleError ("the playbook: " ++ playbook ++ " could not be found"))
      | Some k =>
          if negb (file_or_fifo k)
          then Raise (AnsibleError
                        ("the playbook: " ++ playbook ++ " does not appear to be a file"))
          else check_playbooks rest
      end
  end.

(** [cur_tags = list(mytags.union(set(task.tags))); cur_tags.sort()] *)
Definition cur_tags (mytags : PySet.t) (task_tags : list string) : list string :=
  PySort.sort
    (PySet.to_list (PySet.union seed mytags (PySet.of_list seed task_tags))).

Section Play.

Variable mytags : PySet.t.

(** The body of the [else] branch of [_process_block] for one task
    that is not a meta task. *)
Definition process_task (task : Task) (taskmsg : string)
    (task_list : list TaskCliJSON) (all_tags : PySet.t)
  : string * list TaskCliJSON * PySet.t :=
  let all_tags := PySet.update seed all_tags (tags task) in
  if list_any_tasks then
    let cur_tags := cur_tags mytags (tags task) in
    let taskmsg :=
      if truthy (name task)
      then taskmsg ++ ("      " ++ get_name task)
      else taskmsg ++ ("      " ++ action task) in
    let taskmsg := taskmsg ++ (tab ++ "TAGS: [" ++ join ", " cur_tags ++ "]") in
    let taskmsg :=
      if listtaskswithpath options
      then taskmsg ++ (tab ++ "PATH: [" ++ get_path task ++ "]")
      else taskmsg in
    let taskmsg := taskmsg ++ nl in
    let task_list :=
      if listtasksjson options
      then (task_list ++ [TaskCliJSON_init task])%list
      else task_list in
    (taskmsg, task_list, all_tags)
  else (taskmsg, task_list, all_tags).

(** [_process_block(b)].  [all_tags] is the set of the enclosing
    scope, which the function updates; it is passed in and returned. *)
Fixpoint _process_block (b : Block) (all_tags : PySet.t) {struct b}
  : string * list TaskCliJSON * PySet.t :=
  match b with
  | mkBlock _ items =>
      (fix loop (items : list BlockItem) (taskmsg : string)
           (task_list : list TaskCliJSON) (all_tags : PySet.t) {struct items}
         : string * list TaskCliJSON * PySet.t :=
         match items with
         | [] => (taskmsg, task_list, all_tags)
         | ItemBlock task :: rest =>
             let '(block_taskmsg, block_task_list, all_tags) :=
               _process_block task all_tags in
             let task_list := (task_list ++ block_task_list)%list in
             let taskmsg := taskmsg ++ block_taskmsg in
             loop rest taskmsg task_list all_tags
         | ItemTask task :: rest =>
             if String.eqb (action task) "meta"
             then loop rest taskmsg task_list all_tags
             else
               let '(taskmsg, task_list, all_tags) :=
                 process_task task taskmsg task_list all_tags in
               loop rest taskmsg task_list all_tags
         end) items "" [] all_tags
  end.

(** [for block in play.compile(): ...] *)
Fixpoint compile_loop (play : Play) (blocks : list Block) (taskmsg : string)
    (task_list : list TaskCliJSON) (all_tags : PySet.t)
  : string * list TaskCliJSON * PySet.t :=
  match blocks with
  | [] => (taskmsg, task_list, all_tags)
  | block :: rest =>
      let block := filter_tagged_tasks play block in
      if negb (has_tasks block)
      then compile_loop play rest taskmsg task_list all_tags
      else
        let '(block_taskmsg, block_task_list, all_tags) :=
          _process_block block all_tags in
        let taskmsg := taskmsg ++ block_taskmsg in
        let task_list := (task_list ++ block_task_list)%list in
        compile_loop play rest taskmsg task_list all_tags
  end.

End Play.

(** The heading of a play: ["\n  play #%d (%s): %s"], its tags, and on
    request its path and its hosts. *)
Definition play_msg (idx : nat) (play : Play) (mytags : PySet.t) : string :=
  let msg :=
    nl ++ "  play #" ++ of_nat (idx + 1) ++ " (" ++ join "," (play_hosts play)
       ++ "): " ++ play_name play in
  let msg := msg ++ (tab ++ "TAGS: [" ++ join "," (PySet.to_list mytags) ++ "]") in
  let msg :=
    if listtaskswithpath options
    then msg ++ (tab ++ "PATH: [" ++ play_get_path play ++ "]")
    else msg in
  if listhosts options then
    let playhosts := PySet.of_list seed (get_hosts (play_hosts play)) in
    let msg :=
      msg ++ (nl ++ "    pattern: " ++ str_of_hosts (play_hosts play) ++ nl
                 ++ "    hosts (" ++ of_nat (List.length playhosts) ++ "):") in
    fold_left (fun msg host => msg ++ (nl ++ "      " ++ host)) playhosts msg
  else msg.

(** The task part of a play: the text of the task lines, the list of the
    task summaries and the tags seen. *)
Definition play_tasks (play : Play) (mytags : PySet.t)
  : string * list TaskCliJSON * PySet.t :=
  let taskmsg := "" in
  let task_list := [] in
  let taskmsg := if list_any_tasks then "    tasks:" ++ nl else taskmsg in
  let '(taskmsg, task_list, all_tags) :=
    compile_loop mytags play (compile play) taskmsg task_list (PySet.empty seed) in
  let taskmsg :=
    if listtags options
    then
      let cur_tags :=
        PySort.sort (PySet.to_list (PySet.union seed mytags all_tags)) in
      taskmsg ++ ("      TASK TAGS: [" ++ join ", " cur_tags ++ "]" ++ nl)
    else taskmsg in
  (taskmsg, task_list, all_tags).

(** The body of [for idx, play in enumerate(p['plays'])]: the output so
    far and the list of play summaries are passed in and returned. *)
Definition list_play (idx : nat) (play : Play) (out : list message)
    (play_list : list PlayCliJSON) : list message * list PlayCliJSON :=
  let curr_play := PlayCliJSON_init play in
  let mytags := PySet.of_list seed (play_tags play) in
  let msg := play_msg idx play mytags in
  let out := if negb (listtasksjson options) then (out ++ [Text msg])%list else out in
  let '(out, curr_play) :=
    if listtags options || listtasks options || listtaskswithpath options
       || listtasksjson options
    then
      let '(taskmsg, task_list, _) := play_tasks play mytags in
      if listtasksjson options
      then (out, set_tasks curr_play task_list)
      else ((out ++ [Text taskmsg])%list, curr_play)
    else (out, curr_play) in
  let play_list :=
    if listtasksjson options then (play_list ++ [curr_play])%list else play_list in
  (out, play_list).

Fixpoint list_plays (idx : nat) (pl : list Play) (out : list message)
    (play_list : list PlayCliJSON) : list message * list PlayCliJSON :=
  match pl with
  | [] => (out, play_list)
  | play :: rest =>
      let '(out, play_list) := list_play idx play out play_list in
      list_plays (S idx) rest out play_list
  end.

(** [for p in results: ...; return 0] *)
Fixpoint list_playbooks (results : list PlaybookEntry) (out : list message)
  : list message * result Z :=
  match results with
  | [] => (out, Ok 0%Z)
  | p :: rest =>
      let playbook_name := entry_playbook p in
      let dir := realpath_dirname playbook_name in
      let playbook_json := PlaybookCliJSON_init playbook_name dir in
      let play_list := [] in
      let out :=
        if negb (listtasksjson options)
        then (out ++ [Text (nl ++ "playbook: " ++ playbook_name)])%list
        else out in
      let '(out, play_list) := list_plays 0 (entry_plays p) out play_list in
      if listtasksjson options then
        let playbook_json := set_plays playbook_json play_list in
        match dumps (json_repr playbook_json) with
        | Ok j => list_playbooks rest (out ++ [JsonDoc j])%list
        | Raise e => (out, Raise e)
        end
      else list_playbooks rest out
  end.

(** [run]: the check of the playbook paths, then the listing of
    [results], the value [pbex.run()] returned: a list of playbook
    entries when a listing was asked for, a return code otherwise.
    The result is the output written and the value returned or the
    exception raised.  The calls in between (passwords, inventory, fact
    cache, the executor itself) and [loader.set_basedir] belong to other
    modules and write no listing; they are not modelled. *)
Definition run (args : list string) (results : list PlaybookEntry + Z)
  : list message * result Z :=
  match check_playbooks args with
  | Raise e => ([], Raise e)
  | Ok _ =>
      match results with
      | inl l => list_playbooks l []
      | inr r => ([], Ok r)
      end
  end.

End Listing.

(** ** The listing as the specification words it *)

Module Spec.

Import PyStr.
Local Open Scope string_scope.

(** A control-only task: its action is the meta marker. *)
Definition is_control (t : Task) : bool := String.eqb (action t) "meta".

(** The leaf tasks of a block tree, depth first, in declaration order. *)
Fixpoint dfs_preorder (b : Block) : list Task :=
  match b with
  | mkBlock _ items =>
      (fix leaves (items : list BlockItem) : list Task :=
         match items with
         | [] => []
         | ItemTask t :: rest => t :: leaves rest
         | ItemBlock b' :: rest => (dfs_preorder b' ++ leaves rest)%list
         end) items
  end.

(** The leaves that are not control-only tasks. *)
Definition emitted (b : Block) : list Task :=
  filter (fun t => negb (is_control t)) (dfs_preorder b).

(** The same leaves, each with the tags declared by the blocks on its
    path, outermost first. *)
Fixpoint leaves_with_path (anc : list string) (b : Block)
  : list (list string * Task) :=
  match b with
  | mkBlock tg items =>
      (fix leaves (items : list BlockItem) : list (list string * Task) :=
         match items with
         | [] => []
         | ItemTask t :: rest => ((anc ++ tg)%list, t) :: leaves rest
         | ItemBlock b' :: rest =>
             (leaves_with_path (anc ++ tg) b' ++ leaves rest)%list
         end) items
  end.

(** The block tree without its control-only tasks, at every depth. *)
Fixpoint strip_meta (b : Block) : Block :=
  match b with
  | mkBlock tg items =>
      mkBlock tg
        ((fix strip (items : list BlockItem) : list BlockItem :=
            match items with
            | [] => []
            | ItemTask t :: rest =>
                if is_control t then strip rest else ItemTask t :: strip rest
            | ItemBlock b' :: rest => ItemBlock (strip_meta b') :: strip rest
            end) items)
  end.

(** A union of tag lists, without duplicates, sorted. *)
Definition sorted_union (ls : list (list string)) : list string :=
  PySort.sort (nodup string_dec (List.concat ls)).

(** Effective tags of a task: play tags, tags of the blocks on its path,
    its own tags. *)
Definition effective_tags (play_tags anc : list string) (t : Task) : list string :=
  sorted_union [play_tags; anc; tags t].

(** The line of a task, given the tags to show. *)
Definition task_line (options : Options) (shown : list string) (t : Task) : string :=
  "      " ++ (if truthy (name t) then get_name t else action t)
  ++ tab ++ "TAGS: [" ++ join ", " shown ++ "]"
  ++ (if listtaskswithpath options then tab ++ "PATH: [" ++ get_path t ++ "]" else "")
  ++ nl.

Definition lines (l : list string) : string := fold_right String.append "" l.

(** The blocks of a play that the listing walks: filtered, and with
    tasks left. *)
Definition kept_blocks (filter_tagged_tasks : Play -> Block -> Block)
    (has_tasks : Block -> bool) (play : Play) (blocks : list Block) : list Block :=
  filter has_tasks (map (filter_tagged_tasks play) blocks).

(** A position inside a block tree: going outwards, the tags of each
    enclosing block with the items before and after the place.
    [wrap ctx items] puts [items] at that position and returns the item
    list of the outermost block. *)
Definition frame : Type := list string * list BlockItem * list BlockItem.

Definition wrap (ctx : list frame) (items : list BlockItem) : list BlockItem :=
  fold_left
    (fun (inner : list BlockItem) (f : frame) =>
       let '(tg, before, after) := f in
       (before ++ ItemBlock (mkBlock tg inner) :: after)%list)
    ctx items.

(** A value whose objects with a [json_cli_repr] all return a dict or
    [None] from it, at every depth. *)
Fixpoint repr_ok (v : pyval) : bool :=
  match v with
  | PList l => forallb repr_ok l
  | PDict d => forallb (fun kv => repr_ok (snd kv)) d
  | PObj (Some PNone) => true
  | PObj (Some (PDict d)) => forallb (fun kv => repr_ok (snd kv)) d
  | PObj (Some _) => false
  | _ => true
  end.

(** A value that is not encoded as [null]. *)
Definition nonnull (v : pyval) : bool :=
  match v with
  | PNone | PObj None | PObj (Some PNone) => false
  | _ => true
  end.

(** The values of a summary graph: in a plain dict no value is encoded
    as [null]; in the dict that a [json_cli_repr] returns a value is
    [None] or is not encoded as [null]; and so on at every depth. *)
Fixpoint summary_shaped (v : pyval) : bool :=
  match v with
  | PList l => forallb summary_shaped l
  | PDict d => forallb (fun kv => nonnull (snd kv) && summary_shaped (snd kv)) d
  | PObj (Some PNone) => true
  | PObj (Some (PDict d)) =>
      forallb (fun kv => is_None (snd kv)
                         || (nonnull (snd kv) && summary_shaped (snd kv))) d
  | PObj (Some _) => false
  | _ => true
  end.

(** A message that, when it is a JSON document, has no null-valued key. *)
Definition null_free (m : message) : Prop :=
  match m with
  | JsonDoc j => no_null_keys j = true
  | Text _ => True
  end.

End Spec.

(** ** The loop of [_process_block] taken apart *)

Module Loop.

Section WithPlay.

Variable seed : HashSeed.
Variable options : Options.
Variable TaskCliJSON_init : Task -> TaskCliJSON.
Variable mytags : PySet.t.

(** The [for task in b.block] loop, from any state of its variables. *)
Definition items_loop
  : list BlockItem -> string -> list TaskCliJSON -> PySet.t ->
    string * list TaskCliJSON * PySet.t :=
  fix loop (items : list BlockItem) (taskmsg : string)
      (task_list : list TaskCliJSON) (all_tags : PySet.t) {struct items} :=
    match items with
    | [] => (taskmsg, task_list, all_tags)
    | ItemBlock task :: rest =>
        let '(block_taskmsg, block_task_list, all_tags) :=
          _process_block seed options TaskCliJSON_init mytags task all_tags in
        let task_list := (task_list ++ block_task_list)%list in
        let taskmsg := (taskmsg ++ block_taskmsg)%string in
        loop rest taskmsg task_list all_tags
    | ItemTask task :: rest =>
        if String.eqb (action task) "meta"
        then loop rest taskmsg task_list all_tags
        else
          let '(taskmsg, task_list, all_tags) :=
            process_task seed options TaskCliJSON_init mytags task
              taskmsg task_list all_tags in
          loop rest taskmsg task_list all_tags
    end.

(** What one listed task adds to the text and to the task list. *)
Definition task_text (t : Task) : string :=
  if list_any_tasks options
  then Spec.task_line options (cur_tags seed mytags (tags t)) t
  else "".

Definition task_entries (t : Task) : list TaskCliJSON :=
  if listtasksjson options then [TaskCliJSON_init t] else [].

(** [all_tags] after the tasks [ts] have been seen. *)
Definition observe (all_tags : PySet.t) (ts : list Task) : PySet.t :=
  fold_left (fun a t => PySet.update seed a (tags t)) ts all_tags.

(** The state of the loop variables after the tasks [ts] have been
    listed. *)
Definition walked (ts : list Task) (msg : string) (tl : list TaskCliJSON)
    (at0 : PySet.t) : string * list TaskCliJSON * PySet.t :=
  ((msg ++ Spec.lines (map task_text ts))%string,
   (tl ++ flat_map task_entries ts)%list,
   observe at0 ts).

End WithPlay.

(** The leaves of a list of items, and those that are listed. *)
Definition item_leaves (items : list BlockItem) : list Task :=
  flat_map (fun it => match it with
                      | ItemTask t => [t]
                      | ItemBlock b => Spec.dfs_preorder b
                      end) items.

Definition item_emitted (items : list BlockItem) : list Task :=
  filter (fun t => negb (Spec.is_control t)) (item_leaves items).

End Loop.

(** ** Sample inputs *)

Module Sample.

Local Open Scope string_scope.

Definition task (a : string) (n : option string) (tg : list string) : Task :=
  {| action := a;
     name := n;
     get_name := match n with Some s => s | None => "" end;
     tags := tg;
     get_path := "/srv/site.yml:7" |}.

(** --list-tasks *)
Definition opts_tasks : Options :=
  {| listhosts := false; listtasks := true; listtaskswithpath := false;
     listtasksjson := false; listtags := false |}.

(** --list-tasks --list-tags *)
Definition opts_tasks_tags : Options :=
  {| listhosts := false; listtasks := true; listtaskswithpath := false;
     listtasksjson := false; listtags := true |}.

(** --list-tasks-json *)
Definition opts_json : Options :=
  {| listhosts := false; listtasks := false; listtaskswithpath := false;
     listtasksjson := true; listtags := false |}.

(** Modelled from the spec: a task summary carries the name of the task,
    or its action when it has no name, and its tags; no path is
    reported. *)
Definition task_summary (t : Task) : TaskCliJSON :=
  {| task_json_name := Some (if PyStr.truthy (name t) then get_name t else action t);
     task_json_tags := Some (PySort.sort (nodup string_dec (tags t)));
     task_json_path := None |}.

(** Modelled from the spec: a play summary carries the host pattern, the
    name and the tags of the play; its tasks are set later. *)
Definition play_summary (p : Play) : PlayCliJSON :=
  {| play_json_hosts := Some (PyStr.join "," (play_hosts p));
     play_json_name := Some (play_name p);
     play_json_tags := Some (PySort.sort (nodup string_dec (play_tags p)));
     play_json_tasks := None |}.

Definition no_filter (_ : Play) (b : Block) : Block := b.

(** Modelled from the spec: [Block.has_tasks] of ansible.playbook.block is
    not part of this file; a block has tasks when its item list is not
    empty. *)
Definition has_items (b : Block) : bool :=
  match block b with
  | [] => false
  | _ :: _ => true
  end.
Definition host_names (pattern : list string) : list string := pattern.
Definition str_of (pattern : list string) : string := PyStr.join "," pattern.
Definition dir_of (_ : string) : string := "/srv".

(** Every path leads to a regular file, but for "missing.yml", which
    does not exist, and "/etc", a directory. *)
Definition files (path : string) : option file_kind :=
  if String.eqb path "missing.yml" then None
  else if String.eqb path "/etc" then Some Directory
  else Some RegularFile.

(** A block tagged "b" holding one task tagged "a". *)
Definition tagged_block : Block :=
  mkBlock ["b"] [ItemTask (task "shell" (Some "restart") ["a"])].

(** A block with a task, a nested block holding a control-only task and
    a task without a name, and a last task. *)
Definition nested_block : Block :=
  mkBlock []
    [ItemTask (task "shell" (Some "one") ["a"]);
     ItemBlock (mkBlock [] [ItemTask (task "meta" None ["m"]);
                            ItemTask (task "debug" None [])]);
     ItemTask (task "copy" (Some "three") ["z"; "a"])].

Definition empty_block : Block := mkBlock [] [].

Definition play_of (tg : list string) (blocks : list Block) : Play :=
  {| play_hosts := ["web"];
     play_name := "site";
     play_tags := tg;
     play_get_path := "/srv/site.yml:1";
     compile := blocks |}.

Definition entry_of (tg : list string) (blocks : list Block) : PlaybookEntry :=
  {| entry_playbook := "site.yml"; entry_plays := [play_of tg blocks] |}.

(** [run] on one playbook with one play, with these collaborators. *)
Definition run_sample (seed : HashSeed) (options : Options) (args : list string)
    (tg : list string) (blocks : list Block) : list message * result Z :=
  run seed options files task_summary play_summary no_filter has_items host_names str_of dir_of
    args (inl [entry_of tg blocks]).

End Sample.

(** ** Induction on block trees *)

Definition sub_blocks (P : Block -> Prop) (it : BlockItem) : Prop :=
  match it with
  | ItemBlock b => P b
  | ItemTask _ => True
  end.

Fixpoint Block_tree_ind (P : Block -> Prop)
    (step : forall tg items, Forall (sub_blocks P) items -> P (mkBlock tg items))
    (b : Block) {struct b} : P b :=
  match b with
  | mkBlock tg items =>
      step tg items
        ((fix all (items : list BlockItem) : Forall (sub_blocks P) items :=
            match items return Forall (sub_blocks P) items with
            | [] => @Forall_nil _ (sub_blocks P)
            | it :: rest =>
                @Forall_cons _ (sub_blocks P) it rest
                  (match it return sub_blocks P it with
                   | ItemBlock b' => @Block_tree_ind P step b'
                   | ItemTask _ => I
                   end)
                  (all rest)
            end) items)
  end.

(** ** Values of the JSON types, and induction on documents *)

Module Native.

(** The Python value made of [None], [bool], [int], [str], [list] and
    [dict] that has the structure of a document. *)
Fixpoint of_json (j : json) : pyval :=
  match j with
  | JNull => PNone
  | JBool b => PBool b
  | JNum n => PInt n
  | JStr s => PStr s
  | JArr l => PList (map of_json l)
  | JObj d => PDict (map (fun kv => (fst kv, of_json (snd kv))) d)
  end.

End Native.

Fixpoint json_tree_ind (P : json -> Prop)
    (Hnull : P JNull) (Hbool : forall b, P (JBool b)) (Hnum : forall n, P (JNum n))
    (Hstr : forall s, P (JStr s))
    (Harr : forall l, Forall P l -> P (JArr l))
    (Hobj : forall d, Forall (fun kv => P (snd kv)) d -> P (JObj d))
    (j : json) {struct j} : P j :=
  match j with
  | JNull => Hnull
  | JBool b => Hbool b
  | JNum n => Hnum n
  | JStr s => Hstr s
  | JArr l =>
      Harr l
        ((fix all (l : list json) : Forall P l :=
            match l return Forall P l with
            | [] => @Forall_nil _ P
            | x :: r =>
                @Forall_cons _ P x r
                  (@json_tree_ind P Hnull Hbool Hnum Hstr Harr Hobj x) (all r)
            end) l)
  | JObj d =>
      Hobj d
        ((fix all (d : list (string * json)) : Forall (fun kv => P (snd kv)) d :=
            match d return Forall (fun kv => P (snd kv)) d with
            | [] => @Forall_nil _ (fun kv => P (snd kv))
            | kv :: r =>
                @Forall_cons _ (fun kv => P (snd kv)) kv r
                  (@json_tree_ind P Hnull Hbool Hnum Hstr Harr Hobj (snd kv)) (all r)
            end) d)
  end.

(** ** The output in closed form *)

Module Closed.

Import PyStr.
Local Open Scope string_scope.

(** A member of an object, present when the attribute is not [None]. *)
Definition member {A : Type} (k : string) (f : A -> json) (o : option A)
  : list (string * json) :=
  match o with
  | None => []
  | Some a => [(k, f a)]
  end.

Definition json_strs (l : list string) : json := JArr (map JStr l).

Definition json_of_task (t : TaskCliJSON) : json :=
  JObj (member "name" JStr (task_json_name t)
        ++ member "tags" json_strs (task_json_tags t)
        ++ member "path" JStr (task_json_path t))%list.

Definition json_of_play (p : PlayCliJSON) : json :=
  JObj (member "hosts" JStr (play_json_hosts p)
        ++ member "name" JStr (play_json_name p)
        ++ member "tags" json_strs (play_json_tags p)
        ++ member "tasks" (fun l => JArr (map json_of_task l)) (play_json_tasks p))%list.

(** A path that leads to a regular file or to a FIFO. *)
Definition path_ok (fs : string -> option file_kind) (p : string) : bool :=
  match fs p with
  | Some k => file_or_fifo k
  | None => false
  end.

(** The tasks that the listing of a play shows. *)
Definition listed (filter_tagged_tasks : Play -> Block -> Block)
    (has_tasks : Block -> bool) (play : Play) : list Task :=
  flat_map Spec.emitted (Spec.kept_blocks filter_tagged_tasks has_tasks play (compile play)).

Section WithCollaborators.

Variable seed : HashSeed.
Variable options : Options.
Variable TaskCliJSON_init : Task -> TaskCliJSON.
Variable PlayCliJSON_init : Play -> PlayCliJSON.
Variable filter_tagged_tasks : Play -> Block -> Block.
Variable has_tasks : Block -> bool.
Variable get_hosts : list string -> list string.
Variable str_of_hosts : list string -> string.
Variable realpath_dirname : string -> string.

(** The summary of a play with its tasks set. *)
Definition play_summary (play : Play) : PlayCliJSON :=
  set_tasks (PlayCliJSON_init play)
    (map TaskCliJSON_init (listed filter_tagged_tasks has_tasks play)).

(** The document of one playbook. *)
Definition entry_doc (p : PlaybookEntry) : json :=
  JObj [("playbook", JStr (entry_playbook p));
        ("plays", JArr (map (fun play => json_of_play (play_summary play)) (entry_plays p)));
        ("playbook_dir", JStr (realpath_dirname (entry_playbook p)))].

(** The task part of a play, from the tags of the play and its listed
    tasks. *)
Definition tasks_text (ptags : list string) (ts : list Task) : string :=
  (if list_any_tasks options then "    tasks:" ++ nl else "")
  ++ Spec.lines
       (if list_any_tasks options
        then map (fun t => Spec.task_line options (Spec.sorted_union [ptags; tags t]) t) ts
        else [])
  ++ (if listtags options
      then "      TASK TAGS: ["
             ++ join ", " (Spec.sorted_union (ptags :: map tags ts)) ++ "]" ++ nl
      else "").

(** The messages of one play, of the plays of a playbook and of one
    playbook when the output is text. *)
Definition text_play (idx : nat) (play : Play) : list message :=
  let mytags := PySet.of_list seed (play_tags play) in
  Text (play_msg seed options get_hosts str_of_hosts idx play mytags)
  :: (if listtags options || listtasks options || listtaskswithpath options
      then [Text (fst (fst (play_tasks seed options TaskCliJSON_init filter_tagged_tasks
                              has_tasks play mytags)))]
      else []).

Fixpoint text_plays (idx : nat) (pl : list Play) : list message :=
  match pl with
  | [] => []
  | play :: rest => (text_play idx play ++ text_plays (S idx) rest)%list
  end.

Definition text_entry (p : PlaybookEntry) : list message :=
  Text (nl ++ "playbook: " ++ entry_playbook p) :: text_plays 0 (entry_plays p).

(** The heading of a play up to its hosts. *)
Definition play_heading (idx : nat) (play : Play) (mytags : PySet.t) : string :=
  let msg :=
    nl ++ "  play #" ++ of_nat (idx + 1) ++ " (" ++ join "," (play_hosts play)
       ++ "): " ++ play_name play in
  let msg := msg ++ (tab ++ "TAGS: [" ++ join "," (PySet.to_list mytags) ++ "]") in
  if listtaskswithpath options
  then msg ++ (tab ++ "PATH: [" ++ play_get_path play ++ "]")
  else msg.

End WithCollaborators.

End Closed.

(** ** Tags as the loader hands them over *)

Module Loader.

Definition has_tag (l : list string) (x : string) : bool :=
  existsb (String.eqb x) l.

(** Modelled from the spec: the [tags] of a task are computed by
    ansible.playbook, which is not part of this file.  The attribute of a
    compiled task holds, with the tags the task declares, the tags of
    every block on its path.  [tags_inherited anc b] says so of every task
    of [b], [anc] being the tags of the blocks around [b]. *)
Definition tags_inherited (anc : list string) (b : Block) : bool :=
  forallb (fun at_ : list string * Task => forallb (has_tag (tags (snd at_))) (fst at_))
    (Spec.leaves_with_path anc b).

Definition with_tags (t : Task) (l : list string) : Task :=
  {| action := action t;
     name := name t;
     get_name := get_name t;
     tags := l;
     get_path := get_path t |}.

(** Modelled from the spec: the compiled tree of a tree of declarations.
    Every task gets as [tags] the tags it declares followed by those of
    the blocks on its path, outermost first. *)
Fixpoint inherit (anc : list string) (b : Block) : Block :=
  match b with
  | mkBlock tg items =>
      mkBlock tg
        ((fix compiled (items : list BlockItem) : list BlockItem :=
            match items with
            | [] => []
            | ItemTask t :: rest =>
                ItemTask (with_tags t (tags t ++ (anc ++ tg))) :: compiled rest
            | ItemBlock b' :: rest => ItemBlock (inherit (anc ++ tg) b') :: compiled rest
            end) items)
  end.

End Loader.

(** ** The document of a value, read off its structure *)

Module Reference.

(** A list is an array and a plain dict an object, slot by slot; an object
    with a projection is the object of its attributes that are not
    [None]; an object without a projection, or whose projection is
    [None], is [null]. *)
Fixpoint encoding (v : pyval) : json :=
  match v with
  | PNone => JNull
  | PBool b => JBool b
  | PInt n => JNum n
  | PStr s => JStr s
  | PList l => JArr (map encoding l)
  | PDict d => JObj (map (fun kv => (fst kv, encoding (snd kv))) d)
  | PObj (Some (PDict d)) =>
      JObj ((fix members (d : list (string * pyval)) : list (string * json) :=
               match d with
               | [] => []
               | kv :: rest =>
                   if is_None (snd kv) then members rest
                   else (fst kv, encoding (snd kv)) :: members rest
               end) d)
  | PObj _ => JNull
  end.

End Reference.

(** * Properties *)

(** ** Strings and sorting *)

Lemma append_assoc (a b c : string) : ((a ++ b) ++ c = a ++ (b ++ c))%string.
Proof. induction a as [|ch a IH]; simpl; [reflexivity | now rewrite IH]. Qed.

Lemma append_nil_r (a : string) : (a ++ "" = a)%string.
Proof. induction a as [|ch a IH]; simpl; [reflexivity | now rewrite IH]. Qed.

Lemma lines_app (l1 l2 : list string) :
  Spec.lines (l1 ++ l2) = (Spec.lines l1 ++ Spec.lines l2)%string.
Proof.
  induction l1 as [|x l1 IH]; simpl; [reflexivity|].
  now rewrite IH, append_assoc.
Qed.

Lemma ascii_compare_refl (c : ascii) : Ascii.compare c c = Eq.
Proof. unfold Ascii.compare. apply N.compare_refl. Qed.

Lemma leb_refl (s : string) : String.leb s s = true.
Proof. destruct (String.leb_total s s); assumption. Qed.

Lemma leb_trans (a b c : string) :
  String.leb a b = true -> String.leb b c = true -> String.leb a c = true.
Proof.
  unfold String.leb. revert b c.
  induction a as [|x a IH]; intros [|y b] [|z c]; simpl; try congruence.
  unfold Ascii.compare.
  destruct (N.compare_spec (N_of_ascii x) (N_of_ascii y)) as [Hxy|Hxy|Hxy];
    destruct (N.compare_spec (N_of_ascii y) (N_of_ascii z)) as [Hyz|Hyz|Hyz];
    destruct (N.compare_spec (N_of_ascii x) (N_of_ascii z)) as [Hxz|Hxz|Hxz];
    try congruence; try lia; intros H1 H2.
  apply (IH b c); assumption.
Qed.

Module SortFacts.

Import PySort.

Lemma insert_perm (x : string) (l : list string) : Permutation (insert x l) (x :: l).
Proof.
  induction l as [|y l IH]; simpl; [reflexivity|].
  destruct (String.leb x y); [reflexivity|].
  rewrite IH. apply perm_swap.
Qed.

Lemma sort_perm (l : list string) : Permutation (sort l) l.
Proof.
  induction l as [|x l IH]; simpl; [reflexivity|].
  rewrite insert_perm. now constructor.
Qed.

Lemma insert_sorted (x : string) (l : list string) :
  StronglySorted PyStr.le l -> StronglySorted PyStr.le (insert x l).
Proof.
  induction 1 as [|y l Hs IH Hy]; simpl.
  - repeat constructor.
  - destruct (String.leb x y) eqn:E.
    + constructor; [now constructor|].
      constructor; [exact E|].
      eapply Forall_impl; [|exact Hy].
      intros z Hz. exact (leb_trans _ _ _ E Hz).
    + constructor; [exact IH|].
      assert (Hyx : PyStr.le y x).
      { destruct (String.leb_total x y) as [H|H]; [congruence | exact H]. }
      rewrite Forall_forall. intros z Hz.
      apply (Permutation_in _ (insert_perm x l)) in Hz.
      destruct Hz as [<-|Hz]; [exact Hyx|].
      rewrite Forall_forall in Hy. now apply Hy.
Qed.

Lemma sort_sorted (l : list string) : StronglySorted PyStr.le (sort l).
Proof.
  induction l as [|x l IH]; simpl; [constructor | now apply insert_sorted].
Qed.

Lemma sorted_perm_eq (l1 l2 : list string) :
  StronglySorted PyStr.le l1 -> StronglySorted PyStr.le l2 ->
  Permutation l1 l2 -> l1 = l2.
Proof.
  intros H1. revert l2.
  induction H1 as [|x l1 Hs1 IH Hx]; intros l2 H2 HP.
  - apply Permutation_nil in HP. now subst.
  - destruct H2 as [|y l2 Hs2 Hy].
    + apply Permutation_sym, Permutation_nil in HP. discriminate.
    + assert (x = y) as ->.
      { rewrite Forall_forall in Hx, Hy.
        assert (Hin1 : In x (y :: l2)) by (eapply Permutation_in; [exact HP | now left]).
        assert (Hin2 : In y (x :: l1))
          by (eapply Permutation_in; [exact (Permutation_sym HP) | now left]).
        destruct Hin1 as [->|Hin1]; [reflexivity|].
        destruct Hin2 as [->|Hin2]; [reflexivity|].
        apply String.leb_antisym; [now apply Hx | now apply Hy]. }
      f_equal. apply IH; [exact Hs2|].
      eapply Permutation_cons_inv; exact HP.
Qed.

(** Sorting forgets the order of its input. *)
Lemma sort_perm_eq (l1 l2 : list string) : Permutation l1 l2 -> sort l1 = sort l2.
Proof.
  intros HP. apply sorted_perm_eq; try apply sort_sorted.
  rewrite !sort_perm. exact HP.
Qed.

(** Two duplicate-free lists with the same elements sort alike. *)
Lemma sort_set_eq (l1 l2 : list string) :
  NoDup l1 -> NoDup l2 -> (forall x, In x l1 <-> In x l2) -> sort l1 = sort l2.
Proof.
  intros N1 N2 H. apply sort_perm_eq. now apply NoDup_Permutation.
Qed.

Lemma sort_NoDup (l : list string) : NoDup l -> NoDup (sort l).
Proof.
  intros H. eapply Permutation_NoDup; [|exact H].
  apply Permutation_sym, sort_perm.
Qed.

Lemma sort_In (l : list string) (x : string) : In x (sort l) <-> In x l.
Proof.
  split; apply Permutation_in; [|apply Permutation_sym]; apply sort_perm.
Qed.

End SortFacts.

(** ** The traversal *)

Section TraversalFacts.

Variable seed : HashSeed.
Variable options : Options.
Variable init : Task -> TaskCliJSON.
Variable mytags : PySet.t.

Let pb := _process_block seed options init mytags.
Let loop := Loop.items_loop seed options init mytags.
Let text := Loop.task_text seed options mytags.
Let entries := Loop.task_entries options init.
Local Abbreviation walked := (Loop.walked seed options init mytags).

Lemma process_block_unfold (tg : list string) (items : list BlockItem) (at0 : PySet.t) :
  pb (mkBlock tg items) at0 = loop items "" [] at0.
Proof. reflexivity. Qed.

Lemma dfs_preorder_unfold (tg : list string) (items : list BlockItem) :
  Spec.dfs_preorder (mkBlock tg items) = Loop.item_leaves items.
Proof.
  simpl. induction items as [|[t|b] rest IH]; simpl; [reflexivity| |]; now rewrite IH.
Qed.

Lemma emitted_unfold (tg : list string) (items : list BlockItem) :
  Spec.emitted (mkBlock tg items) = Loop.item_emitted items.
Proof. unfold Spec.emitted, Loop.item_emitted. now rewrite dfs_preorder_unfold. Qed.

Lemma json_implies_any : listtasksjson options = true -> list_any_tasks options = true.
Proof.
  unfold list_any_tasks. intros ->. now rewrite !orb_true_r.
Qed.

Lemma process_task_eq (t : Task) (msg : string) (tl : list TaskCliJSON) (at0 : PySet.t) :
  process_task seed options init mytags t msg tl at0 =
  ((msg ++ text t)%string, tl ++ entries t, PySet.update seed at0 (tags t)).
Proof.
  unfold process_task, text, entries, Loop.task_text, Loop.task_entries, Spec.task_line.
  destruct (list_any_tasks options) eqn:Hany.
  - destruct (PyStr.truthy (name t)), (listtaskswithpath options),
      (listtasksjson options); simpl;
      rewrite ?append_assoc, ?app_nil_r; simpl; rewrite ?append_assoc; reflexivity.
  - destruct (listtasksjson options) eqn:Hj.
    + apply json_implies_any in Hj. congruence.
    + now rewrite append_nil_r, app_nil_r.
Qed.

Lemma item_emitted_task (t : Task) (rest : list BlockItem) :
  Loop.item_emitted (ItemTask t :: rest) =
  if String.eqb (action t) "meta"
  then Loop.item_emitted rest
  else t :: Loop.item_emitted rest.
Proof.
  unfold Loop.item_emitted, Spec.is_control. simpl.
  now destruct (String.eqb (action t) "meta").
Qed.

Lemma item_emitted_block (b : Block) (rest : list BlockItem) :
  Loop.item_emitted (ItemBlock b :: rest) = Spec.emitted b ++ Loop.item_emitted rest.
Proof. unfold Loop.item_emitted, Spec.emitted. simpl. apply filter_app. Qed.

Lemma observe_app (at0 : PySet.t) (l1 l2 : list Task) :
  Loop.observe seed at0 (l1 ++ l2) = Loop.observe seed (Loop.observe seed at0 l1) l2.
Proof. apply fold_left_app. Qed.

Lemma walked_app (l1 l2 : list Task) (msg : string) (tl : list TaskCliJSON)
    (at0 : PySet.t) :
  walked (l1 ++ l2) msg tl at0 =
  let '(m, l, a) := walked l1 msg tl at0 in walked l2 m l a.
Proof.
  unfold Loop.walked.
  now rewrite map_app, lines_app, flat_map_app, observe_app, append_assoc, app_assoc.
Qed.

Lemma loop_walked (items : list BlockItem) :
  Forall (sub_blocks (fun b => forall at0, pb b at0 = walked (Spec.emitted b) "" [] at0))
    items ->
  forall msg tl at0,
    loop items msg tl at0 = walked (Loop.item_emitted items) msg tl at0.
Proof.
  induction 1 as [|it rest Hit _ IH]; intros msg tl at0.
  - unfold Loop.walked. simpl. now rewrite append_nil_r, app_nil_r.
  - destruct it as [t|b]; simpl.
    + rewrite item_emitted_task.
      destruct (String.eqb (action t) "meta"); [apply IH|].
      rewrite process_task_eq.
      change (loop rest (msg ++ text t)%string (tl ++ entries t)
                (PySet.update seed at0 (tags t)) =
              walked ([t] ++ Loop.item_emitted rest) msg tl at0).
      rewrite walked_app, IH. unfold Loop.walked at 2. simpl.
      now rewrite append_nil_r, app_nil_r.
    + rewrite item_emitted_block, walked_app.
      simpl in Hit. fold pb. rewrite Hit.
      unfold Loop.walked at 1 3. simpl.
      apply IH.
Qed.

Lemma process_block_walked (b : Block) (at0 : PySet.t) :
  pb b at0 = walked (Spec.emitted b) "" [] at0.
Proof.
  revert at0. induction b as [tg items IH] using Block_tree_ind. intros at0.
  rewrite process_block_unfold, emitted_unfold. now apply loop_walked.
Qed.

End TraversalFacts.

Section PlayFacts.

Variable seed : HashSeed.
Variable options : Options.
Variable init : Task -> TaskCliJSON.
Variable filter_tagged_tasks : Play -> Block -> Block.
Variable has_tasks : Block -> bool.
Variable mytags : PySet.t.

Lemma compile_loop_walked (play : Play) (blocks : list Block) (msg : string)
    (tl : list TaskCliJSON) (at0 : PySet.t) :
  compile_loop seed options init filter_tagged_tasks has_tasks mytags play blocks msg tl at0 =
  Loop.walked seed options init mytags
    (flat_map Spec.emitted (Spec.kept_blocks filter_tagged_tasks has_tasks play blocks))
    msg tl at0.
Proof.
  revert msg tl at0. unfold Spec.kept_blocks.
  induction blocks as [|b rest IH]; intros msg tl at0; simpl.
  - unfold Loop.walked. simpl. now rewrite append_nil_r, app_nil_r.
  - destruct (has_tasks (filter_tagged_tasks play b)); simpl; [|apply IH].
    rewrite process_block_walked, walked_app.
    unfold Loop.walked at 1 3. simpl. apply IH.
Qed.

Lemma entries_map (ts : list Task) :
  flat_map (Loop.task_entries options init) ts =
  if listtasksjson options then map init ts else [].
Proof.
  unfold Loop.task_entries.
  destruct (listtasksjson options); induction ts as [|t ts IH]; simpl; congruence.
Qed.

End PlayFacts.

(** The tags shown for a task do not depend on the order of the sets. *)
Lemma cur_tags_sorted_union (seed : HashSeed) (ptags ttags : list string) :
  cur_tags seed (PySet.of_list seed ptags) ttags = Spec.sorted_union [ptags; ttags].
Proof.
  unfold cur_tags, Spec.sorted_union, PySet.to_list, PySet.union, PySet.of_list.
  apply SortFacts.sort_set_eq.
  - apply set_iter_NoDup.
  - apply NoDup_nodup.
  - intros x. rewrite set_iter_In, nodup_In. simpl.
    rewrite app_nil_r, !in_app_iff, !set_iter_In. reflexivity.
Qed.

Lemma sorted_union_spec (ls : list (list string)) :
  StronglySorted PyStr.le (Spec.sorted_union ls)
  /\ NoDup (Spec.sorted_union ls)
  /\ forall x, In x (Spec.sorted_union ls) <-> exists l, In l ls /\ In x l.
Proof.
  unfold Spec.sorted_union. split; [apply SortFacts.sort_sorted|]. split.
  - apply SortFacts.sort_NoDup, NoDup_nodup.
  - intros x. rewrite SortFacts.sort_In, nodup_In, in_concat. reflexivity.
Qed.

(** ** Emitted tasks and control-only tasks *)

Lemma emitted_not_control (b : Block) (t : Task) :
  In t (Spec.emitted b) -> action t <> "meta".
Proof.
  unfold Spec.emitted, Spec.is_control. rewrite filter_In. intros [_ H] E.
  rewrite E in H. discriminate.
Qed.

Lemma strip_meta_unfold (tg : list string) (items : list BlockItem) :
  Spec.strip_meta (mkBlock tg items) =
  mkBlock tg
    (flat_map (fun it => match it with
                         | ItemTask t => if Spec.is_control t then [] else [ItemTask t]
                         | ItemBlock b => [ItemBlock (Spec.strip_meta b)]
                         end) items).
Proof.
  simpl. f_equal.
  induction items as [|[t|b] rest IH]; simpl; [reflexivity| |]; rewrite IH;
    [now destruct (Spec.is_control t) | reflexivity].
Qed.

Lemma emitted_strip_meta (b : Block) : Spec.emitted (Spec.strip_meta b) = Spec.emitted b.
Proof.
  induction b as [tg items IH] using Block_tree_ind.
  rewrite strip_meta_unfold, !emitted_unfold.
  induction IH as [|it rest Hit _ IHrest]; [reflexivity|].
  destruct it as [t|b]; simpl.
  - rewrite item_emitted_task. unfold Spec.is_control.
    destruct (String.eqb (action t) "meta") eqn:E; simpl; [exact IHrest|].
    rewrite item_emitted_task, E. now f_equal.
  - rewrite !item_emitted_block. simpl in Hit. now rewrite Hit, IHrest.
Qed.

Lemma flat_map_emitted_strip (bs : list Block) :
  flat_map Spec.emitted (map Spec.strip_meta bs) = flat_map Spec.emitted bs.
Proof.
  induction bs as [|b bs IH]; simpl; [reflexivity|].
  now rewrite emitted_strip_meta, IH.
Qed.

Lemma observe_In (seed : HashSeed) (ts : list Task) (at0 : PySet.t) (x : string) :
  In x (Loop.observe seed at0 ts) <-> In x at0 \/ exists t, In t ts /\ In x (tags t).
Proof.
  revert at0. induction ts as [|t ts IH]; intros at0; simpl.
  - split; [now left | intros [H|[t [[] _]]]; exact H].
  - rewrite IH. unfold PySet.update. rewrite set_iter_In, in_app_iff. split.
    + intros [[H|H]|[t' [H1 H2]]]; eauto.
    + intros [H|[t' [[<-|H1] H2]]]; eauto.
Qed.

Lemma lines_empty (A : Type) (l : list A) : Spec.lines (map (fun _ => ""%string) l) = ""%string.
Proof. induction l as [|x l IH]; simpl; [reflexivity | exact IH]. Qed.

(** ** Order of the listed tasks *)

(** C5. For every block tree, of any depth, the tasks that [_process_block]
    lists are the leaves of the tree in depth-first pre-order, in
    declaration order, without the control-only tasks: the text is the
    sequence of their lines, the JSON task list (with --list-tasks-json)
    the sequence of their summaries, and the tags seen are theirs, in that
    order.  The same holds for the loop over the blocks of a play, applied
    to the blocks it keeps. *)
Theorem traversal_is_dfs_preorder
    (seed : HashSeed) (options : Options) (init : Task -> TaskCliJSON)
    (filter_tagged_tasks : Play -> Block -> Block) (has_tasks : Block -> bool)
    (mytags : PySet.t) :
  (forall b at0,
      _process_block seed options init mytags b at0 =
      (Spec.lines (map (Loop.task_text seed options mytags) (Spec.emitted b)),
       (if listtasksjson options then map init (Spec.emitted b) else []),
       Loop.observe seed at0 (Spec.emitted b)))
  /\
  (forall play blocks msg tl at0,
      let ts :=
        flat_map Spec.emitted
          (Spec.kept_blocks filter_tagged_tasks has_tasks play blocks) in
      compile_loop seed options init filter_tagged_tasks has_tasks mytags play blocks
        msg tl at0 =
      ((msg ++ Spec.lines (map (Loop.task_text seed options mytags) ts))%string,
       tl ++ (if listtasksjson options then map init ts else []),
       Loop.observe seed at0 ts)).
Proof.
  split.
  - intros b at0. rewrite process_block_walked. unfold Loop.walked. simpl.
    now rewrite entries_map.
  - intros play blocks msg tl at0 ts. rewrite compile_loop_walked. unfold Loop.walked.
    now rewrite entries_map.
Qed.

(** ** Tags shown for a task *)

(** The tags on the line of a listed task are the union of the tags of
    the play and of the [tags] of the task, without duplicates and in
    sorted order. *)
Lemma shown_tags_play_union_task
    (seed : HashSeed) (options : Options) (init : Task -> TaskCliJSON)
    (ptags : list string) (b : Block) (at0 : PySet.t) :
  fst (fst (_process_block seed options init (PySet.of_list seed ptags) b at0)) =
  (if list_any_tasks options
   then Spec.lines
          (map (fun t => Spec.task_line options (Spec.sorted_union [ptags; tags t]) t)
             (Spec.emitted b))
   else ""%string)
  /\
  (forall t,
      StronglySorted PyStr.le (Spec.sorted_union [ptags; tags t])
      /\ NoDup (Spec.sorted_union [ptags; tags t])
      /\ forall x, In x (Spec.sorted_union [ptags; tags t]) <-> In x ptags \/ In x (tags t)).
Proof.
  split.
  - rewrite process_block_walked. unfold Loop.walked, Loop.task_text. simpl.
    destruct (list_any_tasks options).
    + f_equal. apply map_ext. intros t. now rewrite cur_tags_sorted_union.
    + apply lines_empty.
  - intros t. destruct (sorted_union_spec [ptags; tags t]) as (Hs & Hn & Hin).
    split; [exact Hs|]. split; [exact Hn|].
    intros x. rewrite Hin. split.
    + intros (l & [<-|[<-|[]]] & Hx); auto.
    + intros [Hx|Hx]; [exists ptags | exists (tags t)]; simpl; auto.
Qed.

(** ** Control-only tasks *)

(** C4. Control-only tasks are never listed and their tags are never
    collected: removing every control-only task from a block tree, at every
    depth, changes neither the text, nor the JSON task list, nor the tags
    seen; two plays whose kept blocks differ only in control-only tasks
    have the same task part; no listed task is control-only, and the tags
    seen are those of the listed tasks. *)
Theorem control_tasks_never_listed
    (seed : HashSeed) (options : Options) (init : Task -> TaskCliJSON)
    (filter_tagged_tasks : Play -> Block -> Block) (has_tasks : Block -> bool)
    (mytags : PySet.t) :
  (forall b at0,
      _process_block seed options init mytags (Spec.strip_meta b) at0 =
      _process_block seed options init mytags b at0)
  /\
  (forall play1 play2,
      map Spec.strip_meta (Spec.kept_blocks filter_tagged_tasks has_tasks play1 (compile play1)) =
      map Spec.strip_meta (Spec.kept_blocks filter_tagged_tasks has_tasks play2 (compile play2)) ->
      play_tasks seed options init filter_tagged_tasks has_tasks play1 mytags =
      play_tasks seed options init filter_tagged_tasks has_tasks play2 mytags)
  /\
  (forall b at0 x,
      (forall t, In t (Spec.emitted b) -> action t <> "meta"%string)
      /\ (In x (snd (_process_block seed options init mytags b at0)) <->
          In x at0 \/
          exists t, In t (Spec.dfs_preorder b) /\ action t <> "meta"%string /\ In x (tags t))).
Proof.
  split; [|split].
  - intros b at0. now rewrite !process_block_walked, emitted_strip_meta.
  - intros play1 play2 H. unfold play_tasks.
    rewrite !compile_loop_walked.
    rewrite <- (flat_map_emitted_strip (Spec.kept_blocks _ _ play1 _)), H,
      flat_map_emitted_strip.
    reflexivity.
  - intros b at0 x. split; [apply emitted_not_control|].
    rewrite process_block_walked. unfold Loop.walked. simpl.
    rewrite observe_In. unfold Spec.emitted, Spec.is_control.
    split; (intros [H|(t & Ht & Hx)]; [now left | right; exists t]).
    + apply filter_In in Ht. destruct Ht as [Ht Hc].
      split; [exact Ht|]. split; [|exact Hx].
      intros E. rewrite E in Hc. discriminate.
    + destruct Hx as [Hn Hx]. split; [|exact Hx].
      apply filter_In. split; [exact Ht|].
      destruct (String.eqb_spec (action t) "meta"); [contradiction | reflexivity].
Qed.

(** The play of [Sample.nested_block] and the play of that block without
    its control-only task have the same task part. *)
Lemma control_tasks_never_listed_witness :
  play_tasks seed_insertion Sample.opts_tasks_tags Sample.task_summary
    Sample.no_filter Sample.has_items (Sample.play_of [] [Sample.nested_block]) [] =
  play_tasks seed_insertion Sample.opts_tasks_tags Sample.task_summary
    Sample.no_filter Sample.has_items
    (Sample.play_of [] [Spec.strip_meta Sample.nested_block]) [].
Proof.
  apply (control_tasks_never_listed seed_insertion Sample.opts_tasks_tags
           Sample.task_summary Sample.no_filter Sample.has_items []).
  reflexivity.
Defined.

(** ** Blocks without tasks *)

Lemma item_emitted_app (l1 l2 : list BlockItem) :
  Loop.item_emitted (l1 ++ l2) = Loop.item_emitted l1 ++ Loop.item_emitted l2.
Proof.
  unfold Loop.item_emitted, Loop.item_leaves. now rewrite flat_map_app, filter_app.
Qed.

Lemma item_emitted_wrap (ctx : list Spec.frame) (l1 l2 : list BlockItem) :
  Loop.item_emitted l1 = Loop.item_emitted l2 ->
  Loop.item_emitted (Spec.wrap ctx l1) = Loop.item_emitted (Spec.wrap ctx l2).
Proof.
  revert l1 l2. induction ctx as [|[[tg before] after] ctx IH]; intros l1 l2 H; simpl.
  - exact H.
  - apply IH.
    rewrite !item_emitted_app, !item_emitted_block, !emitted_unfold. now rewrite H.
Qed.

(** C6. A block that has no tasks left yields nothing: no text, no JSON
    entry, no tag.  Wherever it stands in a block tree, at any depth, the
    traversal of the tree is the traversal of the tree without it; the
    loop over the blocks of a play that meets it after filtering goes on as
    if it were not in the list, and so it does for every block for which
    [has_tasks] answers no after filtering. *)
Theorem empty_block_contributes_nothing
    (seed : HashSeed) (options : Options) (init : Task -> TaskCliJSON)
    (filter_tagged_tasks : Play -> Block -> Block) (has_tasks : Block -> bool)
    (mytags : PySet.t) (b : Block) :
  block b = [] ->
  (forall at0, _process_block seed options init mytags b at0 = (""%string, [], at0))
  /\
  (forall ctx tg before after at0,
      _process_block seed options init mytags
        (mkBlock tg (Spec.wrap ctx (before ++ ItemBlock b :: after))) at0 =
      _process_block seed options init mytags
        (mkBlock tg (Spec.wrap ctx (before ++ after))) at0)
  /\
  (forall play b0 before after msg tl at0,
      filter_tagged_tasks play b0 = b ->
      compile_loop seed options init filter_tagged_tasks has_tasks mytags play
        (before ++ b0 :: after) msg tl at0 =
      compile_loop seed options init filter_tagged_tasks has_tasks mytags play
        (before ++ after) msg tl at0)
  /\
  (forall play b0 before after msg tl at0,
      has_tasks (filter_tagged_tasks play b0) = false ->
      compile_loop seed options init filter_tagged_tasks has_tasks mytags play
        (before ++ b0 :: after) msg tl at0 =
      compile_loop seed options init filter_tagged_tasks has_tasks mytags play
        (before ++ after) msg tl at0).
Proof.
  intros Hb. destruct b as [tgb items]. simpl in Hb. subst items.
  split; [|split; [|split]].
  - reflexivity.
  - intros ctx tg before after at0.
    rewrite !process_block_walked, !emitted_unfold. f_equal.
    apply item_emitted_wrap. now rewrite !item_emitted_app, item_emitted_block.
  - intros play b0 before after msg tl at0 Hf.
    rewrite !compile_loop_walked. unfold Spec.kept_blocks.
    rewrite !map_app, !filter_app, !flat_map_app. simpl. rewrite Hf.
    now destruct (has_tasks (mkBlock tgb [])).
  - intros play b0 before after msg tl at0 Hf.
    rewrite !compile_loop_walked. unfold Spec.kept_blocks.
    rewrite !map_app, !filter_app. simpl. now rewrite Hf.
Qed.

(** An empty block between two tasks of a nested block changes nothing. *)
Lemma empty_block_contributes_nothing_witness :
  block Sample.empty_block = []
  /\ _process_block seed_insertion Sample.opts_tasks Sample.task_summary ["p"%string]
       (mkBlock []
          (Spec.wrap [(["outer"%string], [], [])]
             ([ItemTask (Sample.task "shell" (Some "one"%string) [])]
                ++ ItemBlock Sample.empty_block
                :: [ItemTask (Sample.task "copy" (Some "two"%string) [])]))) [] =
     _process_block seed_insertion Sample.opts_tasks Sample.task_summary ["p"%string]
       (mkBlock []
          (Spec.wrap [(["outer"%string], [], [])]
             ([ItemTask (Sample.task "shell" (Some "one"%string) [])]
                ++ [ItemTask (Sample.task "copy" (Some "two"%string) [])]))) [].
Proof.
  split; [reflexivity|].
  apply (empty_block_contributes_nothing seed_insertion Sample.opts_tasks
           Sample.task_summary Sample.no_filter Sample.has_items ["p"%string]
           Sample.empty_block).
  reflexivity.
Defined.

(** ** The task summaries of a play *)

(** With --list-tasks alone the play of [Sample.nested_block] lists three
    tasks as text, and its list of task summaries is empty. *)
Lemma summaries_not_built_for_text :
  snd (fst (play_tasks seed_insertion Sample.opts_tasks Sample.task_summary
              Sample.no_filter Sample.has_items (Sample.play_of [] [Sample.nested_block]) []))
  <>
  map Sample.task_summary
    (flat_map Spec.emitted
       (Spec.kept_blocks Sample.no_filter Sample.has_items (Sample.play_of [] [Sample.nested_block])
          [Sample.nested_block])).
Proof. vm_compute. discriminate. Qed.

(** C8, amended. The list of task summaries of a play is built from the
    traversal when --list-tasks-json is given, and only then: it holds the
    summaries of the listed tasks of the kept blocks, in order, with that
    option, and is empty without it, while the text of the task lines is
    composed during the same traversal. *)
Theorem summaries_built_only_for_json
    (seed : HashSeed) (options : Options) (init : Task -> TaskCliJSON)
    (filter_tagged_tasks : Play -> Block -> Block) (has_tasks : Block -> bool)
    (play : Play) (mytags : PySet.t) :
  snd (fst (play_tasks seed options init filter_tagged_tasks has_tasks play mytags)) =
  (if listtasksjson options
   then map init
          (flat_map Spec.emitted
             (Spec.kept_blocks filter_tagged_tasks has_tasks play (compile play)))
   else []).
Proof.
  unfold play_tasks. rewrite compile_loop_walked. unfold Loop.walked. simpl.
  apply entries_map.
Qed.

(** ** The JSON encoder *)

Lemma mapM_ext (A B : Type) (f g : A -> result B) (l : list A) :
  (forall x, In x l -> f x = g x) -> mapM f l = mapM g l.
Proof.
  induction l as [|x l IH]; intros H; simpl; [reflexivity|].
  rewrite (H x (or_introl eq_refl)), IH; [reflexivity|].
  intros y Hy. apply H. now right.
Qed.

Lemma mapM_Forall (A B : Type) (f : A -> result B) (Q : B -> Prop) (l : list A) :
  (forall x, In x l -> exists y, f x = Ok y /\ Q y) ->
  exists ys, mapM f l = Ok ys /\ Forall Q ys.
Proof.
  induction l as [|x l IH]; intros H; simpl.
  - exists []. split; [reflexivity | constructor].
  - destruct (H x (or_introl eq_refl)) as (y & -> & Hy).
    destruct IH as (ys & -> & Hys); [intros z Hz; apply H; now right|].
    exists (y :: ys). split; [reflexivity | now constructor].
Qed.

Lemma pysize_pos (v : pyval) : 1 <= pysize v.
Proof. destruct v as [| | | | | |[r|]]; simpl; lia. Qed.

Lemma pysize_list_In (l : list pyval) (x : pyval) :
  In x l -> pysize x <= fold_right (fun x n => pysize x + n) 0 l.
Proof.
  induction l as [|y l IH]; simpl; [contradiction|].
  intros [->|H]; [lia | apply IH in H; lia].
Qed.

Lemma pysize_dict_In (d : list (string * pyval)) (kv : string * pyval) :
  In kv d -> pysize (snd kv) <= fold_right (fun kv n => pysize (snd kv) + n) 0 d.
Proof.
  induction d as [|y d IH]; simpl; [contradiction|].
  intros [->|H]; [lia | apply IH in H; lia].
Qed.

Lemma pysize_filter (p : string * pyval -> bool) (d : list (string * pyval)) :
  pysize (PDict (filter p d)) <= pysize (PDict d).
Proof.
  simpl. apply le_n_S.
  induction d as [|kv d IH]; simpl; [lia|].
  destruct (p kv); simpl; lia.
Qed.

(** Above the size of the value the fuel does not matter. *)
Lemma iterencode_fuel (f1 : nat) :
  forall f2 v, pysize v <= f1 -> pysize v <= f2 -> iterencode f1 v = iterencode f2 v.
Proof.
  induction f1 as [|a IH]; intros f2 v H1 H2.
  - pose proof (pysize_pos v). lia.
  - destruct f2 as [|b]; [pose proof (pysize_pos v); lia|].
    destruct v as [| | | |l|d|[r|]]; simpl in *; try reflexivity.
    + erewrite mapM_ext; [reflexivity|].
      intros x Hx. apply pysize_list_In in Hx. apply IH; lia.
    + erewrite mapM_ext; [reflexivity|].
      intros kv Hkv. apply pysize_dict_In in Hkv. rewrite (IH b); [reflexivity| |]; lia.
    + destruct r as [| | | | |d|]; simpl in *; try reflexivity.
      * apply IH; simpl; lia.
      * pose proof (pysize_filter (fun kv => negb (is_None (snd kv))) d) as Hf.
        simpl in Hf. apply IH; simpl; lia.
    + apply IH; simpl; lia.
Qed.

Lemma dumps_fuel (f : nat) (v : pyval) : pysize v <= f -> iterencode f v = dumps v.
Proof. intros H. unfold dumps. apply iterencode_fuel; [exact H | lia]. Qed.

(** The encoder's equations, free of fuel. *)
Lemma dumps_list (l : list pyval) :
  dumps (PList l) = (js <- mapM dumps l ;; Ok (JArr js)).
Proof.
  unfold dumps at 1. simpl. erewrite mapM_ext; [reflexivity|].
  intros x Hx. apply dumps_fuel. now apply pysize_list_In.
Qed.

Lemma dumps_dict (d : list (string * pyval)) :
  dumps (PDict d) =
  (kjs <- mapM (fun kv => j <- dumps (snd kv) ;; Ok (fst kv, j)) d ;; Ok (JObj kjs)).
Proof.
  unfold dumps at 1. simpl. erewrite mapM_ext; [reflexivity|].
  intros kv Hkv. simpl. rewrite dumps_fuel; [reflexivity|].
  now apply pysize_dict_In.
Qed.

Lemma default_size (r o' : pyval) :
  default (PObj (Some r)) = Ok o' -> pysize o' <= pysize r.
Proof.
  destruct r as [| | | | |d|]; simpl; try discriminate.
  - intros [= <-]. simpl. lia.
  - intros [= <-]. apply pysize_filter.
Qed.

Lemma dumps_obj (r : option pyval) :
  dumps (PObj r) = (o' <- default (PObj r) ;; dumps o').
Proof.
  unfold dumps at 1. destruct r as [r|]; [|reflexivity].
  replace (iterencode (pysize (PObj (Some r))) (PObj (Some r)))
    with (o' <- default (PObj (Some r)) ;; iterencode (pysize r) o') by reflexivity.
  destruct (default (PObj (Some r))) as [o'|e] eqn:E; [|reflexivity].
  unfold bind. apply dumps_fuel. now apply default_size.
Qed.

Lemma forallb_Forall_true (A : Type) (p : A -> bool) (l : list A) :
  Forall (fun x => p x = true) l -> forallb p l = true.
Proof. intros H. apply forallb_forall. now apply Forall_forall. Qed.

(** A summary-shaped value is encoded, without a null-valued key. *)
Lemma shaped_dumps (n : nat) :
  forall v, pysize v <= n -> Spec.summary_shaped v = true ->
    exists j, dumps v = Ok j /\ no_null_keys j = true
              /\ (Spec.nonnull v = true -> is_null j = false).
Proof.
  induction n as [|n IH]; intros v Hn Hv.
  - pose proof (pysize_pos v). lia.
  - destruct v as [| | | |l|d|[r|]].
    + exists JNull. repeat split. discriminate.
    + exists (JBool b). now repeat split.
    + exists (JNum n0). now repeat split.
    + exists (JStr s). now repeat split.
    + rewrite dumps_list. simpl in Hn, Hv. rewrite forallb_forall in Hv.
      destruct (mapM_Forall dumps (fun j => no_null_keys j = true) l) as (js & -> & Hjs).
      { intros x Hx. destruct (IH x) as (j & Hj & Hnn & _).
        - apply pysize_list_In in Hx. lia.
        - now apply Hv.
        - now exists j. }
      exists (JArr js). split; [reflexivity|]. split; [|reflexivity].
      simpl. now apply forallb_Forall_true.
    + rewrite dumps_dict. simpl in Hn, Hv. rewrite forallb_forall in Hv.
      destruct (mapM_Forall (fun kv => j <- dumps (snd kv) ;; Ok (fst kv, j))
                  (fun kj : string * json =>
                     negb (is_null (snd kj)) && no_null_keys (snd kj) = true) d)
        as (kjs & -> & Hkjs).
      { intros kv Hkv. specialize (Hv kv Hkv). apply andb_prop in Hv.
        destruct Hv as [Hnon Hsh].
        destruct (IH (snd kv)) as (j & Hj & Hnn & Hnull).
        - apply pysize_dict_In in Hkv. lia.
        - exact Hsh.
        - exists (fst kv, j). rewrite Hj. split; [reflexivity|]. simpl.
          now rewrite (Hnull Hnon), Hnn. }
      exists (JObj kjs). split; [reflexivity|]. split; [|reflexivity].
      simpl. now apply forallb_Forall_true.
    + rewrite dumps_obj.
      destruct r as [| | | | |d|]; simpl in Hv; try discriminate.
      * exists JNull. repeat split. discriminate.
      * simpl default. unfold bind.
        destruct (IH (PDict (filter (fun kv => negb (is_None (snd kv))) d)))
          as (j & Hj & Hnn & Hnull).
        -- pose proof (pysize_filter (fun kv => negb (is_None (snd kv))) d).
           simpl in *. lia.
        -- simpl. apply forallb_forall. intros kv Hkv.
           apply filter_In in Hkv. destruct Hkv as [Hin Hnone].
           rewrite forallb_forall in Hv. specialize (Hv kv Hin).
           destruct (is_None (snd kv)); [discriminate | exact Hv].
        -- exists j. split; [exact Hj|]. split; [exact Hnn|].
           intros _. now apply Hnull.
    + exists JNull. repeat split. discriminate.
Qed.

(** A value whose projections are dicts or [None] is encoded. *)
Lemma repr_ok_dumps (n : nat) :
  forall v, pysize v <= n -> Spec.repr_ok v = true -> exists j, dumps v = Ok j.
Proof.
  induction n as [|n IH]; intros v Hn Hv.
  - pose proof (pysize_pos v). lia.
  - destruct v as [| | | |l|d|[r|]]; try (eexists; reflexivity).
    + rewrite dumps_list. simpl in Hn, Hv. rewrite forallb_forall in Hv.
      destruct (mapM_Forall dumps (fun _ => True) l) as (js & -> & _).
      { intros x Hx. destruct (IH x) as (j & Hj); [| now apply Hv | now exists j].
        apply pysize_list_In in Hx. lia. }
      now exists (JArr js).
    + rewrite dumps_dict. simpl in Hn, Hv. rewrite forallb_forall in Hv.
      destruct (mapM_Forall (fun kv => j <- dumps (snd kv) ;; Ok (fst kv, j))
                  (fun _ => True) d) as (kjs & -> & _).
      { intros kv Hkv. destruct (IH (snd kv)) as (j & Hj); [| now apply Hv |].
        - apply pysize_dict_In in Hkv. lia.
        - exists (fst kv, j). now rewrite Hj. }
      now exists (JObj kjs).
    + rewrite dumps_obj.
      destruct r as [| | | | |d|]; simpl in Hv; try discriminate.
      * now exists JNull.
      * simpl default. unfold bind.
        apply IH.
        -- pose proof (pysize_filter (fun kv => negb (is_None (snd kv))) d).
           simpl in *. lia.
        -- simpl. apply forallb_forall. intros kv Hkv.
           apply filter_In in Hkv. destruct Hkv as [Hin _].
           rewrite forallb_forall in Hv. now apply Hv.
Qed.

Lemma mapM_Raise (A B : Type) (f : A -> result B) (l : list A) (e : exn) :
  mapM f l = Raise e -> exists x, In x l /\ f x = Raise e.
Proof.
  induction l as [|x l IH]; simpl; [discriminate|].
  destruct (f x) as [y|e'] eqn:E; simpl.
  - destruct (mapM f l) as [ys|e'']; simpl; [discriminate|].
    intros [= <-]. destruct (IH eq_refl) as (z & Hz & Hfz).
    exists z. split; [now right | exact Hfz].
  - intros [= <-]. exists x. split; [now left | exact E].
Qed.

(** The encoder raises only when [remove_nulls] does. *)
Lemma dumps_raise (n : nat) :
  forall v, pysize v <= n -> forall e, dumps v = Raise e -> e = AttributeError.
Proof.
  induction n as [|n IH]; intros v Hn e.
  - pose proof (pysize_pos v). lia.
  - destruct v as [| | | |l|d|[r|]]; try discriminate.
    + rewrite dumps_list. simpl in Hn.
      destruct (mapM dumps l) as [js|e'] eqn:E; simpl; [discriminate|].
      intros [= <-]. apply mapM_Raise in E. destruct E as (x & Hx & Hr).
      apply (IH x); [|exact Hr]. apply pysize_list_In in Hx. lia.
    + rewrite dumps_dict. simpl in Hn.
      destruct (mapM (fun kv => j <- dumps (snd kv) ;; Ok (fst kv, j)) d)
        as [kjs|e'] eqn:E; simpl; [discriminate|].
      intros [= <-]. apply mapM_Raise in E. destruct E as (kv & Hkv & Hr).
      destruct (dumps (snd kv)) as [j|e''] eqn:Ekv; simpl in Hr; [discriminate|].
      injection Hr as <-.
      apply (IH (snd kv)); [|exact Ekv]. apply pysize_dict_In in Hkv. lia.
    + rewrite dumps_obj.
      destruct r as [| | | | |d|]; simpl; try (now intros [= <-]); try discriminate.
      apply IH.
      pose proof (pysize_filter (fun kv => negb (is_None (snd kv))) d).
      simpl in *. lia.
Qed.

(** ** The summary graph *)

Lemma shaped_strs (l : list string) : forallb Spec.summary_shaped (map PStr l) = true.
Proof. induction l as [|s l IH]; simpl; [reflexivity | exact IH]. Qed.

Lemma shaped_task (t : TaskCliJSON) : Spec.summary_shaped (py_task t) = true.
Proof.
  destruct t as [[n|] [tg|] [p|]]; simpl; rewrite ?shaped_strs; reflexivity.
Qed.

Lemma shaped_tasks (l : list TaskCliJSON) :
  forallb Spec.summary_shaped (map py_task l) = true.
Proof.
  induction l as [|t l IH]; [reflexivity|].
  cbn [map forallb]. now rewrite shaped_task, IH.
Qed.

Lemma shaped_play (p : PlayCliJSON) : Spec.summary_shaped (py_play p) = true.
Proof.
  destruct p as [[h|] [n|] [tg|] [ts|]]; simpl;
    rewrite ?shaped_strs; try reflexivity;
    fold (map py_task ts); rewrite shaped_tasks; reflexivity.
Qed.

Lemma shaped_plays (l : list PlayCliJSON) :
  forallb Spec.summary_shaped (map py_play l) = true.
Proof.
  induction l as [|p l IH]; [reflexivity|].
  cbn [map forallb]. now rewrite shaped_play, IH.
Qed.

Lemma shaped_playbook (pb : PlaybookCliJSON) (play_list : list PlayCliJSON) :
  Spec.summary_shaped (json_repr (set_plays pb play_list)) = true.
Proof.
  unfold json_repr, set_plays. cbn [plays playbook playbook_dir py_opt Spec.summary_shaped
    forallb snd Spec.nonnull andb].
  now rewrite shaped_plays.
Qed.

Lemma dumps_playbook (pb : PlaybookCliJSON) (play_list : list PlayCliJSON) :
  exists j, dumps (json_repr (set_plays pb play_list)) = Ok j /\ no_null_keys j = true.
Proof.
  destruct (shaped_dumps (n := pysize (json_repr (set_plays pb play_list)))
              (json_repr (set_plays pb play_list)) (le_n _) (shaped_playbook pb play_list))
    as (j & Hj & Hnn & _).
  now exists j.
Qed.

Section ListingFacts.

Variable seed : HashSeed.
Variable options : Options.
Variable init : Task -> TaskCliJSON.
Variable play_init : Play -> PlayCliJSON.
Variable filter_tagged_tasks : Play -> Block -> Block.
Variable has_tasks : Block -> bool.
Variable get_hosts : list string -> list string.
Variable str_of_hosts : list string -> string.
Variable realpath_dirname : string -> string.

Lemma list_play_null_free (idx : nat) (play : Play) (out : list message)
    (pl : list PlayCliJSON) :
  Forall Spec.null_free out ->
  Forall Spec.null_free
    (fst (list_play seed options init play_init filter_tagged_tasks has_tasks get_hosts
            str_of_hosts idx play out pl)).
Proof.
  intros H. unfold list_play.
  destruct (play_tasks seed options init filter_tagged_tasks has_tasks play
              (PySet.of_list seed (play_tags play))) as [[taskmsg task_list] all_tags].
  destruct (listtasksjson options), (listtags options), (listtasks options),
    (listtaskswithpath options); simpl;
    rewrite ?Forall_app; repeat split; try exact H; repeat constructor.
Qed.

Lemma list_plays_null_free (plays : list Play) :
  forall idx out pl,
    Forall Spec.null_free out ->
    Forall Spec.null_free
      (fst (list_plays seed options init play_init filter_tagged_tasks has_tasks get_hosts
              str_of_hosts idx plays out pl)).
Proof.
  induction plays as [|play rest IH]; intros idx out pl H; simpl; [exact H|].
  pose proof (list_play_null_free idx play pl H) as H1.
  destruct (list_play seed options init play_init filter_tagged_tasks has_tasks get_hosts
              str_of_hosts idx play out pl) as [out1 pl1].
  now apply IH.
Qed.

Lemma list_playbooks_null_free (results : list PlaybookEntry) :
  forall out,
    Forall Spec.null_free out ->
    Forall Spec.null_free
      (fst (list_playbooks seed options init play_init filter_tagged_tasks has_tasks get_hosts
              str_of_hosts realpath_dirname results out))
    /\ snd (list_playbooks seed options init play_init filter_tagged_tasks has_tasks get_hosts
              str_of_hosts realpath_dirname results out) = Ok 0%Z.
Proof.
  induction results as [|p rest IH]; intros out H; simpl; [now split|].
  set (out0 := if negb (listtasksjson options) then _ else _).
  assert (H0 : Forall Spec.null_free out0).
  { subst out0. destruct (listtasksjson options); simpl; [exact H|].
    rewrite Forall_app. split; [exact H | repeat constructor]. }
  pose proof (list_plays_null_free (entry_plays p) 0 [] H0) as H1.
  destruct (list_plays seed options init play_init filter_tagged_tasks has_tasks get_hosts
              str_of_hosts 0 (entry_plays p) out0 []) as [out1 pl1].
  destruct (listtasksjson options); [|now apply IH].
  destruct (dumps_playbook
              (PlaybookCliJSON_init (entry_playbook p)
                 (realpath_dirname (entry_playbook p))) pl1) as (j & -> & Hj).
  apply IH. rewrite Forall_app. split; [exact H1 | repeat constructor; exact Hj].
Qed.

End ListingFacts.

(** ** Null pruning *)

(** C10. [remove_nulls] is the identity on [None].  On a dict it returns
    the dict of the top-level pairs whose value is not [None], in their
    order and with their values as they are: a [None] inside a nested dict
    or inside a list stays. *)
Theorem remove_nulls_top_level_only :
  remove_nulls PNone = Ok PNone
  /\ (forall d,
        exists d',
          remove_nulls (PDict d) = Ok (PDict d')
          /\ d' = filter (fun kv => negb (is_None (snd kv))) d
          /\ (forall k v, In (k, v) d' <-> In (k, v) d /\ v <> PNone))
  /\ remove_nulls
       (PDict [("a", PNone);
               ("b", PDict [("c", PNone)]);
               ("l", PList [PNone; PDict [("d", PNone)]])]%string)
     = Ok (PDict [("b", PDict [("c", PNone)]);
                  ("l", PList [PNone; PDict [("d", PNone)]])]%string).
Proof.
  split; [reflexivity|]. split; [|reflexivity].
  intros d. eexists. split; [reflexivity|]. split; [reflexivity|].
  intros k v. rewrite filter_In. simpl. split.
  - intros [Hin Hv]. split; [exact Hin|]. intros ->. discriminate.
  - intros [Hin Hv]. split; [exact Hin|]. destruct v; try reflexivity. now elim Hv.
Qed.

Example task_without_path_has_no_path_key :
  fst (Sample.run_sample seed_insertion Sample.opts_json ["site.yml"%string]
         ["p"%string] [Sample.tagged_block]) =
  [JsonDoc
     (JObj [("playbook", JStr "site.yml");
            ("plays",
             JArr [JObj [("hosts", JStr "web");
                         ("name", JStr "site");
                         ("tags", JArr [JStr "p"]);
                         ("tasks",
                          JArr [JObj [("name", JStr "restart");
                                      ("tags", JArr [JStr "a"])]])]]);
            ("playbook_dir", JStr "/srv")]%string)].
Proof. reflexivity. Qed.

(** C1. The JSON document of --list-tasks-json has no null-valued key at
    any depth: a playbook summary whose plays are set is always encoded,
    and every attribute that is [None] in a play summary or in a task
    summary nested in it is left out, because the encoder calls [default],
    and with it [remove_nulls], on every object it meets.  Every document
    that [run] writes is of that kind, and the listing never stops on an
    encoding error. *)
Theorem json_listing_has_no_null_keys :
  (forall pb play_list,
      exists j, dumps (json_repr (set_plays pb play_list)) = Ok j
                /\ no_null_keys j = true)
  /\
  (forall seed options fs init play_init filter_tagged_tasks has_tasks get_hosts str_of_hosts
          realpath_dirname args results,
      Forall Spec.null_free
        (fst (run seed options fs init play_init filter_tagged_tasks has_tasks get_hosts
                str_of_hosts realpath_dirname args results)))
  /\
  (forall seed options init play_init filter_tagged_tasks has_tasks get_hosts str_of_hosts
          realpath_dirname entries,
      snd (list_playbooks seed options init play_init filter_tagged_tasks has_tasks get_hosts
             str_of_hosts realpath_dirname entries []) = Ok 0%Z).
Proof.
  split; [exact dumps_playbook|]. split.
  - intros. unfold run.
    destruct (check_playbooks fs args); [|constructor].
    destruct results as [l|r]; [|constructor].
    now apply list_playbooks_null_free.
  - intros.
    apply (list_playbooks_null_free seed options init play_init filter_tagged_tasks has_tasks
             get_hosts str_of_hosts realpath_dirname entries (out := [])).
    constructor.
Qed.

(** [json_repr] itself is not pruned: a playbook summary whose plays were
    never set, which [run] does not produce, keeps its [plays] key. *)
Example unset_plays_stay_null :
  dumps (json_repr (PlaybookCliJSON_init "site.yml" "/srv")) =
  Ok (JObj [("playbook", JStr "site.yml"); ("plays", JNull);
            ("playbook_dir", JStr "/srv")]%string).
Proof. reflexivity. Qed.

(** ** Values without a projection *)

Example unknown_values_in_a_document :
  dumps (PList [PStr "a"; PObj None; PObj (Some (PDict [("k"%string, PObj None)]))]) =
  Ok (JArr [JStr "a"; JNull; JObj [("k"%string, JNull)]]).
Proof. reflexivity. Qed.

(** ** The check of the playbook paths *)

Lemma check_playbooks_bad (fs : string -> option file_kind) (args : list string) :
  (exists p, In p args
             /\ match fs p with
                | None => True
                | Some k => file_or_fifo k = false
                end) ->
  exists msg, check_playbooks fs args = Raise (AnsibleError msg).
Proof.
  induction args as [|a args IH]; intros (p & Hin & Hp); [contradiction|].
  simpl. destruct (fs a) as [k|] eqn:Ea; [|eexists; reflexivity].
  destruct (file_or_fifo k) eqn:Ek; simpl; [|eexists; reflexivity].
  apply IH. exists p. split; [|exact Hp].
  destruct Hin as [->|Hin]; [|exact Hin].
  rewrite Ea, Ek in Hp. discriminate.
Qed.

(** C7. When one of the playbook paths given to [run] does not exist, or
    is neither a regular file nor a FIFO, [run] raises AnsibleError, the
    error shown to the user, and has written nothing: no playbook is
    walked and no listing is begun, whatever the playbooks hold. *)
Theorem run_rejects_bad_playbook_path
    (seed : HashSeed) (options : Options) (fs : string -> option file_kind)
    (init : Task -> TaskCliJSON) (play_init : Play -> PlayCliJSON)
    (filter_tagged_tasks : Play -> Block -> Block) (has_tasks : Block -> bool)
    (get_hosts : list string -> list string) (str_of_hosts : list string -> string)
    (realpath_dirname : string -> string)
    (args : list string) (results : list PlaybookEntry + Z) :
  (exists p, In p args
             /\ match fs p with
                | None => True
                | Some k => file_or_fifo k = false
                end) ->
  exists msg,
    run seed options fs init play_init filter_tagged_tasks has_tasks get_hosts str_of_hosts
      realpath_dirname args results = ([], Raise (AnsibleError msg)).
Proof.
  intros H. destruct (check_playbooks_bad fs args H) as (msg & Hmsg).
  exists msg. unfold run. now rewrite Hmsg.
Qed.

Lemma run_rejects_bad_playbook_path_witness :
  exists msg,
    Sample.run_sample seed_insertion Sample.opts_tasks
      ["site.yml"; "/etc"; "missing.yml"]%string [] [Sample.nested_block]
    = ([], Raise (AnsibleError msg)).
Proof.
  apply run_rejects_bad_playbook_path.
  exists "/etc"%string. split; [simpl; auto | reflexivity].
Defined.

(** ** Order of the tags of a play *)

(** C2. The heading of a play joins the set of the play's tags as the set
    yields them: for a play tagged "b" and "a" the line reads [b,a] under
    one set order and [a,b] under another, so the text output is not the
    same from one set order to the next, and the tags of the first are not
    sorted. *)
Theorem play_tags_follow_set_order :
  nth 1 (fst (Sample.run_sample seed_insertion Sample.opts_tasks ["site.yml"%string]
                ["b"; "a"]%string [Sample.tagged_block])) (Text "")
  = Text (PyStr.nl ++ "  play #1 (web): site" ++ PyStr.tab ++ "TAGS: [b,a]")
  /\
  nth 1 (fst (Sample.run_sample seed_reversed Sample.opts_tasks ["site.yml"%string]
                ["b"; "a"]%string [Sample.tagged_block])) (Text "")
  = Text (PyStr.nl ++ "  play #1 (web): site" ++ PyStr.tab ++ "TAGS: [a,b]")
  /\
  Sample.run_sample seed_insertion Sample.opts_tasks ["site.yml"%string]
    ["b"; "a"]%string [Sample.tagged_block]
  <>
  Sample.run_sample seed_reversed Sample.opts_tasks ["site.yml"%string]
    ["b"; "a"]%string [Sample.tagged_block].
Proof.
  split; [reflexivity|]. split; [reflexivity|].
  vm_compute. discriminate.
Qed.

(** The task lines and the TASK TAGS line are sorted, whatever the set
    order. *)
Lemma task_tags_line_sorted (seed : HashSeed) (mytags all_tags : PySet.t) :
  PySort.sort (PySet.to_list (PySet.union seed mytags all_tags)) =
  Spec.sorted_union [mytags; all_tags].
Proof.
  unfold Spec.sorted_union, PySet.to_list, PySet.union.
  apply SortFacts.sort_set_eq.
  - apply set_iter_NoDup.
  - apply NoDup_nodup.
  - intros x. rewrite set_iter_In, nodup_In. simpl. now rewrite app_nil_r.
Qed.

(** * Further properties *)

(** ** [remove_nulls] and the encoder *)

Lemma filter_idem (A : Type) (p : A -> bool) (l : list A) :
  filter p (filter p l) = filter p l.
Proof.
  induction l as [|x l IH]; simpl; [reflexivity|].
  destruct (p x) eqn:E; simpl; [rewrite E; now f_equal | exact IH].
Qed.

(** X1. Pruning twice is pruning once: applying [remove_nulls] to its own
    result gives that result again, and an AttributeError stays the
    error. *)
Theorem remove_nulls_idempotent (v : pyval) :
  (v' <- remove_nulls v ;; remove_nulls v') = remove_nulls v.
Proof.
  destruct v as [| | | | |d|]; simpl; try reflexivity.
  now rewrite filter_idem.
Qed.

Lemma mapM_Forall2 (A B : Type) (f : A -> result B) (l : list A) (ys : list B) :
  mapM f l = Ok ys <-> Forall2 (fun x y => f x = Ok y) l ys.
Proof.
  revert ys. induction l as [|x l IH]; intros ys; simpl.
  - split; [intros [= <-]; constructor | intros H; inversion H; reflexivity].
  - split.
    + destruct (f x) as [y|e] eqn:E; simpl; [|discriminate].
      destruct (mapM f l) as [ys'|e]; simpl; [|discriminate].
      intros [= <-]. constructor; [exact E | now apply IH].
    + intros H. inversion H as [|x' y l' ys' Hxy Hrest]; subst.
      rewrite Hxy. simpl. apply IH in Hrest. now rewrite Hrest.
Qed.

Lemma Forall2_length_eq (A B : Type) (R : A -> B -> Prop) (l : list A) (l' : list B) :
  Forall2 R l l' -> List.length l = List.length l'.
Proof. induction 1; simpl; congruence. Qed.

Lemma dumps_dict_Forall2 (d : list (string * pyval)) (j : json) :
  dumps (PDict d) = Ok j <->
  exists kjs, j = JObj kjs
              /\ Forall2 (fun kv kj => fst kj = fst kv /\ dumps (snd kv) = Ok (snd kj)) d kjs.
Proof.
  rewrite dumps_dict. split.
  - destruct (mapM _ d) as [kjs|e] eqn:E; simpl; [|discriminate].
    intros [= <-]. exists kjs. split; [reflexivity|].
    apply mapM_Forall2 in E. eapply Forall2_impl; [|exact E].
    intros kv kj. simpl. destruct (dumps (snd kv)); simpl; [|discriminate].
    intros [= <-]. now split.
  - intros (kjs & -> & H).
    assert (E : mapM (fun kv => j <- dumps (snd kv) ;; Ok (fst kv, j)) d = Ok kjs).
    { apply mapM_Forall2. eapply Forall2_impl; [|exact H].
      intros kv [k j] [Hk Hj]. simpl in *. rewrite Hj. simpl. now subst. }
    now rewrite E.
Qed.

Lemma dumps_list_Forall2 (l : list pyval) (j : json) :
  dumps (PList l) = Ok j <->
  exists js, j = JArr js /\ Forall2 (fun x y => dumps x = Ok y) l js.
Proof.
  rewrite dumps_list. split.
  - destruct (mapM dumps l) as [js|e] eqn:E; simpl; [|discriminate].
    intros [= <-]. exists js. split; [reflexivity | now apply mapM_Forall2].
  - intros (js & -> & H). apply mapM_Forall2 in H. now rewrite H.
Qed.

Lemma Forall2_keys (d : list (string * pyval)) (kjs : list (string * json)) :
  Forall2 (fun kv kj => fst kj = fst kv /\ dumps (snd kv) = Ok (snd kj)) d kjs ->
  map fst kjs = map fst d.
Proof. induction 1 as [|kv kj d kjs [Hk _] _ IH]; simpl; congruence. Qed.

(** X3. An object with a projection is encoded as the object of its
    attributes that are not [None]: the keys of the result are the keys
    of those attributes, in their order. *)
Theorem object_keeps_set_attributes (d : list (string * pyval)) (j : json) :
  dumps (PObj (Some (PDict d))) = Ok j ->
  exists kjs,
    j = JObj kjs
    /\ map fst kjs = map fst (filter (fun kv => negb (is_None (snd kv))) d)
    /\ Forall2 (fun kv kj => dumps (snd kv) = Ok (snd kj))
         (filter (fun kv => negb (is_None (snd kv))) d) kjs.
Proof.
  rewrite dumps_obj. simpl. intros H.
  apply dumps_dict_Forall2 in H. destruct H as (kjs & -> & H).
  exists kjs. split; [reflexivity|]. split; [now apply Forall2_keys|].
  eapply Forall2_impl; [|exact H]. now intros kv kj [_ Hj].
Qed.

Lemma object_keeps_set_attributes_witness :
  exists kjs,
    JObj [("name"%string, JStr "restart")] = JObj kjs
    /\ map fst kjs = ["name"%string].
Proof.
  destruct (@object_keeps_set_attributes
              [("name"%string, PStr "restart"); ("path"%string, PNone)]
              (JObj [("name"%string, JStr "restart")]) eq_refl) as (kjs & E & K & _).
  exists kjs. split; [exact E | exact K].
Defined.

Lemma Forall2_In_l (A B : Type) (R : A -> B -> Prop) (l : list A) (l' : list B) (x : A) :
  Forall2 R l l' -> In x l -> exists y, In y l' /\ R x y.
Proof.
  induction 1 as [|a b l l' Hab _ IH]; simpl; [contradiction|].
  intros [<-|Hin].
  - exists b. split; [now left | exact Hab].
  - destruct (IH Hin) as (y & Hy & Hxy). exists y. split; [now right | exact Hxy].
Qed.

(** A value that is encoded has projections that are dicts or [None]. *)
Lemma dumps_ok_repr_ok (n : nat) :
  forall v j, pysize v <= n -> dumps v = Ok j -> Spec.repr_ok v = true.
Proof.
  induction n as [|n IH]; intros v j Hn Hj.
  - pose proof (pysize_pos v). lia.
  - destruct v as [| | | |l|d|[r|]]; try reflexivity.
    + apply dumps_list_Forall2 in Hj. destruct Hj as (js & -> & H).
      simpl. apply forallb_forall. intros x Hx.
      destruct (Forall2_In_l x H Hx) as (y & _ & Hy).
      apply (IH x y); [|exact Hy]. apply pysize_list_In in Hx. simpl in Hn. lia.
    + apply dumps_dict_Forall2 in Hj. destruct Hj as (kjs & -> & H).
      simpl. apply forallb_forall. intros kv Hkv.
      destruct (Forall2_In_l kv H Hkv) as (kj & _ & _ & Hy).
      apply (IH (snd kv) (snd kj)); [|exact Hy].
      apply pysize_dict_In in Hkv. simpl in Hn. lia.
    + rewrite dumps_obj in Hj.
      destruct r as [| | | | |d|]; simpl in Hj; try discriminate; [reflexivity|].
      assert (Hf : Spec.repr_ok (PDict (filter (fun kv => negb (is_None (snd kv))) d)) = true).
      { apply (IH _ j); [|exact Hj].
        pose proof (pysize_filter (fun kv => negb (is_None (snd kv))) d).
        simpl in *. lia. }
      simpl in Hf. rewrite forallb_forall in Hf.
      simpl. apply forallb_forall. intros kv Hkv.
      destruct (is_None (snd kv)) eqn:E.
      * destruct (snd kv); try discriminate. reflexivity.
      * apply Hf. apply filter_In. split; [exact Hkv | now rewrite E].
Qed.

(** X4. The encoder raises exactly when, somewhere in the value, an
    object's [json_cli_repr] returns something that is neither a dict nor
    [None]; the exception is then the AttributeError of [remove_nulls].
    In every other case a document is produced. *)
Theorem encoder_raises_iff_bad_projection (v : pyval) :
  (Spec.repr_ok v = true <-> exists j, dumps v = Ok j)
  /\ (Spec.repr_ok v = false <-> dumps v = Raise AttributeError).
Proof.
  assert (H1 : Spec.repr_ok v = true <-> exists j, dumps v = Ok j).
  { split.
    - intros H. exact (repr_ok_dumps v (le_n _) H).
    - intros (j & Hj). exact (dumps_ok_repr_ok v (le_n _) Hj). }
  split; [exact H1|]. split.
  - intros H. destruct (dumps v) as [j|e] eqn:E.
    + assert (Spec.repr_ok v = true) by (apply H1; now exists j). congruence.
    + f_equal. exact (dumps_raise v (le_n _) E).
  - intros H. destruct (Spec.repr_ok v) eqn:E; [|reflexivity].
    destruct (proj1 H1 eq_refl) as (j & Hj). congruence.
Qed.

Lemma mapM_map_Ok (A B : Type) (f : A -> result B) (g : B -> A) (l : list B) :
  Forall (fun y => f (g y) = Ok y) l -> mapM f (map g l) = Ok l.
Proof.
  induction 1 as [|y l Hy _ IH]; simpl; [reflexivity|].
  now rewrite Hy, IH.
Qed.

(** X5. Values of the JSON types are encoded as they are: the value that
    has the structure of a document is encoded to that document, so every
    document is the encoding of some value and [default] plays no part
    for such values. *)
Theorem native_values_encode_as_themselves (j : json) :
  dumps (Native.of_json j) = Ok j.
Proof.
  induction j as [| b | n | s | l IH | d IH] using json_tree_ind; try reflexivity.
  - simpl. rewrite dumps_list, mapM_map_Ok; [reflexivity | exact IH].
  - simpl. rewrite dumps_dict.
    rewrite (mapM_map_Ok
               (fun kv : string * pyval => j <- dumps (snd kv) ;; Ok (fst kv, j))
               (fun kv : string * json => (fst kv, Native.of_json (snd kv)))
               (l := d)); [reflexivity|].
    eapply Forall_impl; [|exact IH].
    intros [k j] Hj. simpl in *. now rewrite Hj.
Qed.

Lemma mapM_forallb (A B : Type) (f : A -> result B) (p : B -> bool) (q : A -> bool)
    (l : list A) (ys : list B) :
  Forall2 (fun x y => f x = Ok y) l ys ->
  (forall x y, In x l -> f x = Ok y -> p y = q x) ->
  forallb p ys = forallb q l.
Proof.
  induction 1 as [|x y l ys Hxy _ IH]; intros H; simpl; [reflexivity|].
  rewrite (H x y (or_introl eq_refl) Hxy), IH; [reflexivity|].
  intros x' y' Hin. apply H. now right.
Qed.

Lemma forallb_pruned (p : string * pyval -> bool) (d : list (string * pyval)) :
  forallb p (filter (fun kv => negb (is_None (snd kv))) d) =
  forallb (fun kv => is_None (snd kv) || p kv) d.
Proof.
  induction d as [|kv d IH]; simpl; [reflexivity|].
  destruct (is_None (snd kv)); simpl; [exact IH | now rewrite IH].
Qed.

Lemma dumps_nulls (n : nat) :
  forall v j, pysize v <= n -> dumps v = Ok j ->
    is_null j = negb (Spec.nonnull v) /\ no_null_keys j = Spec.summary_shaped v.
Proof.
  induction n as [|n IH]; intros v j Hn Hj.
  - pose proof (pysize_pos v). lia.
  - destruct v as [| | | |l|d|[r|]]; try (injection Hj as <-; now split).
    + apply dumps_list_Forall2 in Hj. destruct Hj as (js & -> & H).
      split; [reflexivity|]. simpl.
      apply (mapM_forallb dumps no_null_keys Spec.summary_shaped H).
      intros x y Hx Hy. apply (IH x y); [|exact Hy].
      apply pysize_list_In in Hx. simpl in Hn. lia.
    + rewrite dumps_dict in Hj.
      destruct (mapM _ d) as [kjs|e] eqn:E; simpl in Hj; [|discriminate].
      injection Hj as <-. split; [reflexivity|]. simpl.
      apply mapM_Forall2 in E.
      apply (mapM_forallb _ _ _ E).
      intros kv kj Hkv Hkj.
      destruct (dumps (snd kv)) as [j|e] eqn:Ej; simpl in Hkj; [|discriminate].
      injection Hkj as <-. simpl.
      destruct (IH (snd kv) j) as [Hnull Hkeys]; [|exact Ej|].
      * apply pysize_dict_In in Hkv. simpl in Hn. lia.
      * now rewrite Hnull, Hkeys, negb_involutive.
    + rewrite dumps_obj in Hj.
      destruct r as [| | | | |d|]; simpl in Hj; try discriminate.
      * injection Hj as <-. now split.
      * destruct (IH (PDict (filter (fun kv => negb (is_None (snd kv))) d)) j)
          as [Hnull Hkeys]; [|exact Hj|].
        -- pose proof (pysize_filter (fun kv => negb (is_None (snd kv))) d).
           simpl in *. lia.
        -- split; [exact Hnull|]. rewrite Hkeys. simpl. apply forallb_pruned.
Qed.

(** X6. Where nulls come from.  A value is encoded as [null] exactly when
    it is [None], an object without a projection, or an object whose
    projection is [None]; and the document of a value has no null-valued
    key exactly when no plain dict in it holds such a value and no
    projection holds one that is not [None] itself
    ([Spec.summary_shaped]). *)
Theorem null_keys_characterised (v : pyval) (j : json) :
  dumps v = Ok j ->
  (is_null j = true <-> Spec.nonnull v = false)
  /\ (no_null_keys j = true <-> Spec.summary_shaped v = true).
Proof.
  intros Hj. destruct (dumps_nulls v (le_n _) Hj) as [Hnull Hkeys].
  rewrite Hnull, Hkeys. split; [|reflexivity].
  destruct (Spec.nonnull v); simpl; split; congruence.
Qed.

Lemma null_keys_characterised_witness :
  no_null_keys (JObj [("k"%string, JNull)]) = true <->
  Spec.summary_shaped (PObj (Some (PDict [("k"%string, PObj None)]))) = true.
Proof.
  apply (@null_keys_characterised
           (PObj (Some (PDict [("k"%string, PObj None)])))
           (JObj [("k"%string, JNull)])).
  reflexivity.
Defined.

(** ** [PlaybookCliJSON] *)

(** X7. Adding plays one by one: after [add_play] for each play of a list
    the summary holds the plays it had, followed by the added ones in the
    order of the calls, the path and the directory are as before, and a
    summary without plays to which none is added still has none.  Starting
    from a new summary and at least one play, this is what [set_plays]
    gives. *)
Theorem add_play_appends (self : PlaybookCliJSON) (l : list PlayCliJSON) :
  playbook (fold_left add_play l self) = playbook self
  /\ playbook_dir (fold_left add_play l self) = playbook_dir self
  /\ plays (fold_left add_play l self) =
     match plays self, l with
     | None, [] => None
     | None, _ :: _ => Some l
     | Some l0, _ => Some (l0 ++ l)
     end
  /\ (forall pb dir p, fold_left add_play (p :: l) (PlaybookCliJSON_init pb dir) =
                       set_plays (PlaybookCliJSON_init pb dir) (p :: l)).
Proof.
  assert (H : forall l self,
             playbook (fold_left add_play l self) = playbook self
             /\ playbook_dir (fold_left add_play l self) = playbook_dir self
             /\ plays (fold_left add_play l self) =
                match plays self, l with
                | None, [] => None
                | None, _ :: _ => Some l
                | Some l0, _ => Some (l0 ++ l)
                end).
  { clear. induction l as [|p l IH]; intros self; simpl.
    - destruct (plays self); now rewrite ?app_nil_r.
    - destruct (IH (add_play self p)) as (H1 & H2 & H3).
      rewrite H1, H2, H3. simpl. repeat split.
      destruct (plays self) as [l0|]; simpl.
      + now rewrite <- app_assoc.
      + destruct l; reflexivity. }
  destruct (H l self) as (H1 & H2 & H3).
  repeat split; try assumption.
  intros pb dir p.
  destruct (H (p :: l) (PlaybookCliJSON_init pb dir)) as (E1 & E2 & E3).
  destruct (fold_left add_play (p :: l) (PlaybookCliJSON_init pb dir)) as [a b c].
  simpl in *. unfold set_plays. simpl. now subst.
Qed.

(** X8. [json_repr] is handed to the encoder as it is, without
    [remove_nulls]: a playbook summary without plays is encoded with the
    key "plays" and the value [null]. *)
Theorem unset_plays_encoded_as_null (self : PlaybookCliJSON) :
  plays self = None ->
  dumps (json_repr self) =
  Ok (JObj [("playbook", JStr (playbook self)); ("plays", JNull);
            ("playbook_dir", JStr (playbook_dir self))]%string).
Proof.
  intros H. unfold json_repr. rewrite H. reflexivity.
Qed.

Lemma unset_plays_encoded_as_null_witness :
  dumps (json_repr (fold_left add_play [] (PlaybookCliJSON_init "site.yml" "/srv"))) =
  Ok (JObj [("playbook", JStr "site.yml"); ("plays", JNull);
            ("playbook_dir", JStr "/srv")]%string).
Proof.
  apply (unset_plays_encoded_as_null
           (fold_left add_play [] (PlaybookCliJSON_init "site.yml" "/srv"))).
  reflexivity.
Defined.

(** ** The check of the playbook paths, and what [run] returns *)

(** X9. The check passes exactly when every path leads to a regular file
    or a FIFO; an empty argument list passes. *)
Theorem check_passes_iff_all_files (fs : string -> option file_kind) (args : list string) :
  check_playbooks fs args = Ok tt <-> forallb (Closed.path_ok fs) args = true.
Proof.
  unfold Closed.path_ok. induction args as [|a args IH]; simpl; [now split|].
  destruct (fs a) as [k|]; [|split; discriminate].
  destruct (file_or_fifo k); simpl; [exact IH | split; discriminate].
Qed.

(** X10. The error names the first path that fails the check, whatever
    comes after it: "could not be found" when nothing is there, "does not
    appear to be a file" when something else than a regular file or a
    FIFO is. *)
Theorem check_reports_first_bad_path
    (fs : string -> option file_kind) (good : list string) (p : string)
    (rest : list string) :
  forallb (Closed.path_ok fs) good = true ->
  Closed.path_ok fs p = false ->
  check_playbooks fs (good ++ p :: rest) =
  Raise (AnsibleError
           ("the playbook: " ++ p ++
            match fs p with
            | None => " could not be found"
            | Some _ => " does not appear to be a file"
            end)%string).
Proof.
  unfold Closed.path_ok. intros Hgood Hp.
  induction good as [|a good IH]; simpl in *.
  - destruct (fs p) as [k|]; [|reflexivity]. now rewrite Hp.
  - destruct (fs a) as [k|]; [|discriminate].
    destruct (file_or_fifo k); simpl in *; [now apply IH | discriminate].
Qed.

Lemma check_reports_first_bad_path_witness :
  check_playbooks Sample.files
    (["site.yml"%string] ++ "/etc"%string :: ["missing.yml"%string]) =
  Raise (AnsibleError "the playbook: /etc does not appear to be a file").
Proof.
  apply (check_reports_first_bad_path Sample.files ["site.yml"%string] "/etc"
           ["missing.yml"%string]); reflexivity.
Defined.

(** ** The documents of --list-tasks-json *)

Lemma dumps_strs (l : list string) :
  dumps (PList (map PStr l)) = Ok (Closed.json_strs l).
Proof.
  unfold Closed.json_strs. rewrite dumps_list.
  assert (E : mapM dumps (map PStr l) = Ok (map JStr l)).
  { induction l as [|s l IH]; simpl; [reflexivity|].
    change (dumps (PStr s)) with (Ok (JStr s)). simpl. now rewrite IH. }
  now rewrite E.
Qed.

Lemma dumps_task (t : TaskCliJSON) : dumps (py_task t) = Ok (Closed.json_of_task t).
Proof.
  unfold py_task, Closed.json_of_task. rewrite dumps_obj.
  destruct t as [[n|] [tg|] [p|]];
    cbn [default remove_nulls TaskCliJSON_json_cli_repr task_json_name task_json_tags
         task_json_path py_opt filter snd negb is_None py_strs bind];
    rewrite dumps_dict;
    cbn [mapM fst snd py_opt]; unfold py_strs;
    rewrite ?dumps_strs; reflexivity.
Qed.

Lemma dumps_tasks (l : list TaskCliJSON) :
  dumps (PList (map py_task l)) = Ok (JArr (map Closed.json_of_task l)).
Proof.
  rewrite dumps_list.
  assert (E : mapM dumps (map py_task l) = Ok (map Closed.json_of_task l)).
  { induction l as [|t l IH]; [reflexivity|].
    cbn [map mapM]. now rewrite dumps_task, IH. }
  now rewrite E.
Qed.

Lemma dumps_play (p : PlayCliJSON) : dumps (py_play p) = Ok (Closed.json_of_play p).
Proof.
  unfold py_play, Closed.json_of_play. rewrite dumps_obj.
  destruct p as [[h|] [n|] [tg|] [ts|]];
    cbn [default remove_nulls PlayCliJSON_json_cli_repr play_json_hosts play_json_name
         play_json_tags play_json_tasks py_opt filter snd negb is_None py_strs bind];
    rewrite dumps_dict;
    cbn [mapM fst snd py_opt]; unfold py_strs;
    rewrite ?dumps_strs, ?dumps_tasks; reflexivity.
Qed.

Lemma dumps_set_plays (pb : PlaybookCliJSON) (pl : list PlayCliJSON) :
  dumps (json_repr (set_plays pb pl)) =
  Ok (JObj [("playbook", JStr (playbook pb));
            ("plays", JArr (map Closed.json_of_play pl));
            ("playbook_dir", JStr (playbook_dir pb))]%string).
Proof.
  unfold json_repr, set_plays. cbn [playbook plays playbook_dir py_opt].
  rewrite dumps_dict. cbn [mapM fst snd].
  assert (E : dumps (PList (map py_play pl)) = Ok (JArr (map Closed.json_of_play pl))).
  { rewrite dumps_list.
    assert (E : mapM dumps (map py_play pl) = Ok (map Closed.json_of_play pl)).
    { induction pl as [|p pl IH]; [reflexivity|].
      cbn [map mapM]. now rewrite dumps_play, IH. }
    now rewrite E. }
  rewrite E. reflexivity.
Qed.

Section RunFacts.

Variable seed : HashSeed.
Variable options : Options.
Variable init : Task -> TaskCliJSON.
Variable play_init : Play -> PlayCliJSON.
Variable filter_tagged_tasks : Play -> Block -> Block.
Variable has_tasks : Block -> bool.
Variable get_hosts : list string -> list string.
Variable str_of_hosts : list string -> string.
Variable realpath_dirname : string -> string.

Lemma play_tasks_summaries (play : Play) (mytags : PySet.t) :
  snd (fst (play_tasks seed options init filter_tagged_tasks has_tasks play mytags)) =
  if listtasksjson options
  then map init (Closed.listed filter_tagged_tasks has_tasks play)
  else [].
Proof.
  unfold play_tasks, Closed.listed. rewrite compile_loop_walked.
  unfold Loop.walked. simpl. apply entries_map.
Qed.

Lemma list_play_json (idx : nat) (play : Play) (out : list message)
    (pl : list PlayCliJSON) :
  listtasksjson options = true ->
  list_play seed options init play_init filter_tagged_tasks has_tasks get_hosts
    str_of_hosts idx play out pl =
  (out, pl ++ [Closed.play_summary init play_init filter_tagged_tasks has_tasks play]).
Proof.
  intros Hj. unfold list_play, Closed.play_summary.
  pose proof (play_tasks_summaries play (PySet.of_list seed (play_tags play))) as H.
  destruct (play_tasks seed options init filter_tagged_tasks has_tasks play
              (PySet.of_list seed (play_tags play))) as [[m tl] a].
  simpl in H. rewrite Hj in *. subst tl.
  rewrite !orb_true_r. reflexivity.
Qed.

Lemma list_plays_json (plays : list Play) :
  listtasksjson options = true ->
  forall idx out pl,
    list_plays seed options init play_init filter_tagged_tasks has_tasks get_hosts
      str_of_hosts idx plays out pl =
    (out, pl ++ map (Closed.play_summary init play_init filter_tagged_tasks has_tasks)
                  plays).
Proof.
  intros Hj. induction plays as [|play rest IH]; intros idx out pl; simpl.
  - now rewrite app_nil_r.
  - rewrite list_play_json by exact Hj. rewrite IH. now rewrite <- app_assoc.
Qed.

Lemma list_playbooks_json (entries : list PlaybookEntry) :
  listtasksjson options = true ->
  forall out,
    list_playbooks seed options init play_init filter_tagged_tasks has_tasks get_hosts
      str_of_hosts realpath_dirname entries out =
    (out ++ map (fun p => JsonDoc
                            (Closed.entry_doc init play_init filter_tagged_tasks
                               has_tasks realpath_dirname p)) entries,
     Ok 0%Z).
Proof.
  intros Hj. induction entries as [|p rest IH]; intros out; simpl.
  - now rewrite app_nil_r.
  - rewrite Hj. cbn [negb]. rewrite list_plays_json by exact Hj.
    rewrite dumps_set_plays. cbn [app playbook playbook_dir PlaybookCliJSON_init].
    rewrite IH. unfold Closed.entry_doc. now rewrite map_map, <- app_assoc.
Qed.

Lemma list_play_text (idx : nat) (play : Play) (out : list message)
    (pl : list PlayCliJSON) :
  listtasksjson options = false ->
  list_play seed options init play_init filter_tagged_tasks has_tasks get_hosts
    str_of_hosts idx play out pl =
  (out ++ Closed.text_play seed options init filter_tagged_tasks has_tasks get_hosts
            str_of_hosts idx play,
   pl).
Proof.
  intros Hj. unfold list_play, Closed.text_play.
  destruct (play_tasks seed options init filter_tagged_tasks has_tasks play
              (PySet.of_list seed (play_tags play))) as [[m tl] a].
  rewrite Hj, orb_false_r. cbn [negb fst].
  destruct (listtags options || listtasks options || listtaskswithpath options);
    [now rewrite <- app_assoc | reflexivity].
Qed.

Lemma list_plays_text (plays : list Play) :
  listtasksjson options = false ->
  forall idx out pl,
    list_plays seed options init play_init filter_tagged_tasks has_tasks get_hosts
      str_of_hosts idx plays out pl =
    (out ++ Closed.text_plays seed options init filter_tagged_tasks has_tasks get_hosts
              str_of_hosts idx plays,
     pl).
Proof.
  intros Hj. induction plays as [|play rest IH]; intros idx out pl; simpl.
  - now rewrite app_nil_r.
  - rewrite list_play_text by exact Hj. rewrite IH. now rewrite <- app_assoc.
Qed.

Lemma list_playbooks_text (entries : list PlaybookEntry) :
  listtasksjson options = false ->
  forall out,
    list_playbooks seed options init play_init filter_tagged_tasks has_tasks get_hosts
      str_of_hosts realpath_dirname entries out =
    (out ++ flat_map (Closed.text_entry seed options init filter_tagged_tasks has_tasks
                        get_hosts str_of_hosts) entries,
     Ok 0%Z).
Proof.
  intros Hj. induction entries as [|p rest IH]; intros out; simpl.
  - now rewrite app_nil_r.
  - rewrite Hj. cbn [negb]. rewrite list_plays_text by exact Hj.
    rewrite IH. unfold Closed.text_entry. rewrite <- !app_assoc. reflexivity.
Qed.

End RunFacts.

(** ** What [run] writes and returns *)

(** X12. With --list-tasks-json [run] writes one document for each
    playbook, in order, and no text.  The document has the keys
    "playbook", "plays" and "playbook_dir"; "plays" holds one object for
    each play, in order, made of the attributes of the play summary that
    are set, with "tasks" the summaries of the listed tasks of the play in
    traversal order. *)
Theorem json_mode_output
    (seed : HashSeed) (options : Options) (fs : string -> option file_kind)
    (init : Task -> TaskCliJSON) (play_init : Play -> PlayCliJSON)
    (filter_tagged_tasks : Play -> Block -> Block) (has_tasks : Block -> bool)
    (get_hosts : list string -> list string) (str_of_hosts : list string -> string)
    (realpath_dirname : string -> string) (args : list string)
    (entries : list PlaybookEntry) :
  listtasksjson options = true ->
  check_playbooks fs args = Ok tt ->
  run seed options fs init play_init filter_tagged_tasks has_tasks get_hosts
    str_of_hosts realpath_dirname args (inl entries) =
  (map (fun p => JsonDoc (Closed.entry_doc init play_init filter_tagged_tasks has_tasks
                            realpath_dirname p)) entries,
   Ok 0%Z).
Proof.
  intros Hj Hc. unfold run. rewrite Hc.
  now rewrite list_playbooks_json by exact Hj.
Qed.

Lemma json_mode_output_witness :
  Sample.run_sample seed_reversed Sample.opts_json ["site.yml"%string] ["p"%string]
    [Sample.nested_block; Sample.empty_block] =
  (map (fun p => JsonDoc (Closed.entry_doc Sample.task_summary Sample.play_summary
                            Sample.no_filter Sample.has_items Sample.dir_of p))
     [Sample.entry_of ["p"%string] [Sample.nested_block; Sample.empty_block]],
   Ok 0%Z).
Proof.
  apply json_mode_output; reflexivity.
Defined.

(** X13. Without --list-tasks-json [run] writes text only: for each
    playbook its heading, then for each play, in order and numbered from
    1, the heading of the play and, when tasks or tags are listed, one
    message with the task part. *)
Theorem text_mode_output
    (seed : HashSeed) (options : Options) (fs : string -> option file_kind)
    (init : Task -> TaskCliJSON) (play_init : Play -> PlayCliJSON)
    (filter_tagged_tasks : Play -> Block -> Block) (has_tasks : Block -> bool)
    (get_hosts : list string -> list string) (str_of_hosts : list string -> string)
    (realpath_dirname : string -> string) (args : list string)
    (entries : list PlaybookEntry) :
  listtasksjson options = false ->
  check_playbooks fs args = Ok tt ->
  run seed options fs init play_init filter_tagged_tasks has_tasks get_hosts
    str_of_hosts realpath_dirname args (inl entries) =
  (flat_map (Closed.text_entry seed options init filter_tagged_tasks has_tasks
               get_hosts str_of_hosts) entries,
   Ok 0%Z).
Proof.
  intros Hj Hc. unfold run. rewrite Hc.
  now rewrite list_playbooks_text by exact Hj.
Qed.

Lemma text_mode_output_witness :
  Sample.run_sample seed_insertion Sample.opts_tasks_tags ["site.yml"%string]
    ["p"%string] [Sample.nested_block] =
  (flat_map (Closed.text_entry seed_insertion Sample.opts_tasks_tags Sample.task_summary
               Sample.no_filter Sample.has_items Sample.host_names Sample.str_of)
     [Sample.entry_of ["p"%string] [Sample.nested_block]],
   Ok 0%Z).
Proof.
  apply text_mode_output; reflexivity.
Defined.

(** X14. With --list-tasks-json the output of [run] does not depend on
    the order in which sets yield their elements. *)
Theorem json_mode_ignores_set_order
    (seed1 seed2 : HashSeed) (options : Options) (fs : string -> option file_kind)
    (init : Task -> TaskCliJSON) (play_init : Play -> PlayCliJSON)
    (filter_tagged_tasks : Play -> Block -> Block) (has_tasks : Block -> bool)
    (get_hosts : list string -> list string) (str_of_hosts : list string -> string)
    (realpath_dirname : string -> string) (args : list string)
    (results : list PlaybookEntry + Z) :
  listtasksjson options = true ->
  run seed1 options fs init play_init filter_tagged_tasks has_tasks get_hosts
    str_of_hosts realpath_dirname args results =
  run seed2 options fs init play_init filter_tagged_tasks has_tasks get_hosts
    str_of_hosts realpath_dirname args results.
Proof.
  intros Hj. unfold run.
  destruct (check_playbooks fs args); [|reflexivity].
  destruct results as [entries|r]; [|reflexivity].
  now rewrite !list_playbooks_json by exact Hj.
Qed.

Lemma json_mode_ignores_set_order_witness :
  Sample.run_sample seed_insertion Sample.opts_json ["site.yml"%string]
    ["b"; "a"]%string [Sample.tagged_block] =
  Sample.run_sample seed_reversed Sample.opts_json ["site.yml"%string]
    ["b"; "a"]%string [Sample.tagged_block].
Proof.
  apply json_mode_ignores_set_order. reflexivity.
Defined.

(** ** The task part of a play *)

Lemma empty_set_In (seed : HashSeed) (x : string) : ~ In x (PySet.empty seed).
Proof. unfold PySet.empty, PySet.of_list. now rewrite set_iter_In. Qed.

(** The tags of the TASK TAGS line. *)
Lemma aggregate_sorted_union (seed : HashSeed) (ptags : list string) (ts : list Task) :
  PySort.sort
    (PySet.to_list
       (PySet.union seed (PySet.of_list seed ptags)
          (Loop.observe seed (PySet.empty seed) ts))) =
  Spec.sorted_union (ptags :: map tags ts).
Proof.
  unfold Spec.sorted_union, PySet.to_list, PySet.union, PySet.of_list.
  apply SortFacts.sort_set_eq.
  - apply set_iter_NoDup.
  - apply NoDup_nodup.
  - intros x. rewrite set_iter_In, nodup_In, in_app_iff, set_iter_In, observe_In.
    simpl. rewrite in_app_iff, in_concat. split.
    + intros [H|[H|(t & Ht & Hx)]]; [now left | now apply empty_set_In in H |].
      right. exists (tags t). split; [now apply in_map | exact Hx].
    + intros [H|(l & Hl & Hx)]; [now left|].
      apply in_map_iff in Hl. destruct Hl as (t & <- & Ht).
      right. right. now exists t.
Qed.

Lemma play_tasks_text
    (seed : HashSeed) (options : Options) (init : Task -> TaskCliJSON)
    (filter_tagged_tasks : Play -> Block -> Block) (has_tasks : Block -> bool)
    (play : Play) (ptags : list string) :
  fst (fst (play_tasks seed options init filter_tagged_tasks has_tasks play
              (PySet.of_list seed ptags))) =
  Closed.tasks_text options ptags (Closed.listed filter_tagged_tasks has_tasks play).
Proof.
  unfold play_tasks, Closed.tasks_text, Closed.listed.
  rewrite compile_loop_walked. unfold Loop.walked. cbn [fst].
  set (ts := flat_map Spec.emitted _).
  assert (E : Spec.lines (map (Loop.task_text seed options (PySet.of_list seed ptags)) ts) =
              Spec.lines
                (if list_any_tasks options
                 then map (fun t => Spec.task_line options
                                      (Spec.sorted_union [ptags; tags t]) t) ts
                 else [])).
  { unfold Loop.task_text. destruct (list_any_tasks options).
    - f_equal. apply map_ext. intros t. now rewrite cur_tags_sorted_union.
    - apply lines_empty. }
  rewrite E, aggregate_sorted_union.
  destruct (listtags options); [now rewrite append_assoc | now rewrite append_nil_r].
Qed.

(** X15. The task part of a play, in full: the heading "    tasks:" when
    tasks are listed, one line for each listed task of the kept blocks in
    traversal order, showing the sorted union of the tags of the play and
    of the task, and with --list-tags a last line TASK TAGS with the
    sorted union of the tags of the play and of all listed tasks.  With
    --list-tags alone it is that last line only. *)
Theorem task_part_in_full
    (seed : HashSeed) (options : Options) (init : Task -> TaskCliJSON)
    (filter_tagged_tasks : Play -> Block -> Block) (has_tasks : Block -> bool)
    (play : Play) (ptags : list string) :
  fst (fst (play_tasks seed options init filter_tagged_tasks has_tasks play
              (PySet.of_list seed ptags))) =
  ((if list_any_tasks options then "    tasks:" ++ PyStr.nl else "")
   ++ Spec.lines
        (if list_any_tasks options
         then map (fun t => Spec.task_line options (Spec.sorted_union [ptags; tags t]) t)
                (Closed.listed filter_tagged_tasks has_tasks play)
         else [])
   ++ (if listtags options
       then "      TASK TAGS: ["
              ++ PyStr.join ", "
                   (Spec.sorted_union
                      (ptags :: map tags (Closed.listed filter_tagged_tasks has_tasks play)))
              ++ "]" ++ PyStr.nl
       else ""))%string.
Proof. apply play_tasks_text. Qed.

(** X16. The task part of a play, text and task summaries, does not
    depend on the order in which sets yield their elements. *)
Theorem task_part_ignores_set_order
    (seed1 seed2 : HashSeed) (options : Options) (init : Task -> TaskCliJSON)
    (filter_tagged_tasks : Play -> Block -> Block) (has_tasks : Block -> bool)
    (play : Play) (ptags : list string) :
  fst (play_tasks seed1 options init filter_tagged_tasks has_tasks play
         (PySet.of_list seed1 ptags)) =
  fst (play_tasks seed2 options init filter_tagged_tasks has_tasks play
         (PySet.of_list seed2 ptags)).
Proof.
  pose proof (play_tasks_text seed1 options init filter_tagged_tasks has_tasks play ptags)
    as T1.
  pose proof (play_tasks_text seed2 options init filter_tagged_tasks has_tasks play ptags)
    as T2.
  pose proof (play_tasks_summaries seed1 options init filter_tagged_tasks has_tasks play
                (PySet.of_list seed1 ptags)) as S1.
  pose proof (play_tasks_summaries seed2 options init filter_tagged_tasks has_tasks play
                (PySet.of_list seed2 ptags)) as S2.
  destruct (play_tasks seed1 options init filter_tagged_tasks has_tasks play
              (PySet.of_list seed1 ptags)) as [[m1 l1] a1].
  destruct (play_tasks seed2 options init filter_tagged_tasks has_tasks play
              (PySet.of_list seed2 ptags)) as [[m2 l2] a2].
  simpl in *. congruence.
Qed.

(** X17. Every tag of the play is shown on the line of every listed task,
    and every tag shown on a task line is among the tags of the TASK TAGS
    line of its play. *)
Theorem shown_tags_between_play_and_aggregate
    (seed : HashSeed) (options : Options) (init : Task -> TaskCliJSON)
    (filter_tagged_tasks : Play -> Block -> Block) (has_tasks : Block -> bool)
    (play : Play) (ptags : list string) (t : Task) (x : string) :
  In t (Closed.listed filter_tagged_tasks has_tasks play) ->
  (In x ptags -> In x (cur_tags seed (PySet.of_list seed ptags) (tags t)))
  /\
  (In x (cur_tags seed (PySet.of_list seed ptags) (tags t)) ->
   In x (PySort.sort
           (PySet.to_list
              (PySet.union seed (PySet.of_list seed ptags)
                 (snd (play_tasks seed options init filter_tagged_tasks has_tasks play
                         (PySet.of_list seed ptags))))))).
Proof.
  intros Ht.
  assert (Hagg : snd (play_tasks seed options init filter_tagged_tasks has_tasks play
                        (PySet.of_list seed ptags)) =
                 Loop.observe seed (PySet.empty seed)
                   (Closed.listed filter_tagged_tasks has_tasks play)).
  { unfold play_tasks, Closed.listed. rewrite compile_loop_walked.
    unfold Loop.walked. reflexivity. }
  rewrite Hagg, aggregate_sorted_union, cur_tags_sorted_union.
  destruct (sorted_union_spec [ptags; tags t]) as (_ & _ & H1).
  destruct (sorted_union_spec
              (ptags :: map tags (Closed.listed filter_tagged_tasks has_tasks play)))
    as (_ & _ & H2).
  split.
  - intros Hx. apply H1. exists ptags. split; [now left | exact Hx].
  - intros Hx. apply H1 in Hx. destruct Hx as (l & [<-|[<-|[]]] & Hx); apply H2.
    + exists ptags. split; [now left | exact Hx].
    + exists (tags t). split; [right; now apply in_map | exact Hx].
Qed.

Lemma shown_tags_between_play_and_aggregate_witness :
  In "p"%string
    (cur_tags seed_reversed (PySet.of_list seed_reversed ["p"%string])
       (tags (Sample.task "copy" (Some "three"%string) ["z"; "a"]%string))).
Proof.
  apply (shown_tags_between_play_and_aggregate seed_reversed Sample.opts_tasks_tags
           Sample.task_summary Sample.no_filter Sample.has_items
           (Sample.play_of ["p"%string] [Sample.nested_block]) ["p"%string]
           (Sample.task "copy" (Some "three"%string) ["z"; "a"]%string) "p"%string).
  - simpl. auto.
  - simpl. auto.
Defined.

(** ** Set order and the text output *)

Lemma set_iter_perm (seed : HashSeed) (l : list string) :
  Permutation (set_iter seed l) (nodup string_dec l).
Proof.
  apply NoDup_Permutation.
  - apply set_iter_NoDup.
  - apply NoDup_nodup.
  - intros x. now rewrite set_iter_In, nodup_In.
Qed.

Lemma set_iter_small (seed1 seed2 : HashSeed) (l : list string) :
  List.length (nodup string_dec l) <= 1 -> set_iter seed1 l = set_iter seed2 l.
Proof.
  intros H. pose proof (set_iter_perm seed1 l) as P1.
  pose proof (set_iter_perm seed2 l) as P2.
  destruct (nodup string_dec l) as [|a [|b r]]; simpl in H; [| |lia].
  - apply Permutation_sym, Permutation_nil in P1.
    apply Permutation_sym, Permutation_nil in P2. congruence.
  - apply Permutation_sym, Permutation_length_1_inv in P1.
    apply Permutation_sym, Permutation_length_1_inv in P2. congruence.
Qed.

Lemma fold_left_lines (f : string -> string) (l : list string) (m : string) :
  fold_left (fun msg h => (msg ++ f h)%string) l m = (m ++ Spec.lines (map f l))%string.
Proof.
  revert m. induction l as [|h l IH]; intros m; simpl.
  - now rewrite append_nil_r.
  - now rewrite IH, append_assoc.
Qed.

(** X18. The heading of a play with --list-hosts: after the heading
    proper come the pattern, the number of hosts and one line for each
    host.  The hosts are the distinct names that the inventory returns
    for the pattern, each once, and the number shown is their count. *)
Theorem play_heading_lists_distinct_hosts
    (seed : HashSeed) (options : Options) (get_hosts : list string -> list string)
    (str_of_hosts : list string -> string) (idx : nat) (play : Play)
    (mytags : PySet.t) :
  play_msg seed options get_hosts str_of_hosts idx play mytags =
  (Closed.play_heading options idx play mytags
   ++ (if listhosts options
       then PyStr.nl ++ "    pattern: " ++ str_of_hosts (play_hosts play) ++ PyStr.nl
              ++ "    hosts ("
              ++ PyStr.of_nat
                   (List.length (nodup string_dec (get_hosts (play_hosts play))))
              ++ "):"
              ++ Spec.lines
                   (map (fun h => PyStr.nl ++ "      " ++ h)
                      (PySet.of_list seed (get_hosts (play_hosts play))))
       else ""))%string
  /\ Permutation (PySet.of_list seed (get_hosts (play_hosts play)))
       (nodup string_dec (get_hosts (play_hosts play))).
Proof.
  split; [|apply set_iter_perm].
  unfold play_msg, Closed.play_heading.
  destruct (listhosts options); [|now rewrite append_nil_r].
  rewrite fold_left_lines. unfold PySet.of_list.
  rewrite (Permutation_length (set_iter_perm seed (get_hosts (play_hosts play)))).
  destruct (listtaskswithpath options); rewrite !append_assoc; reflexivity.
Qed.

Lemma text_play_small_tags
    (seed1 seed2 : HashSeed) (options : Options) (init : Task -> TaskCliJSON)
    (filter_tagged_tasks : Play -> Block -> Block) (has_tasks : Block -> bool)
    (get_hosts : list string -> list string) (str_of_hosts : list string -> string)
    (idx : nat) (play : Play) :
  listhosts options = false ->
  List.length (nodup string_dec (play_tags play)) <= 1 ->
  Closed.text_play seed1 options init filter_tagged_tasks has_tasks get_hosts
    str_of_hosts idx play =
  Closed.text_play seed2 options init filter_tagged_tasks has_tasks get_hosts
    str_of_hosts idx play.
Proof.
  intros Hh Hs. unfold Closed.text_play. rewrite !play_tasks_text.
  unfold play_msg. rewrite Hh. unfold PySet.of_list, PySet.to_list.
  now rewrite (set_iter_small seed1 seed2 _ Hs).
Qed.

(** X19. Where the text output is fixed: without --list-hosts, when no
    play has two different tags, the output of [run] does not depend on
    the order in which sets yield their elements. *)
Theorem text_output_fixed_for_single_tags
    (seed1 seed2 : HashSeed) (options : Options) (fs : string -> option file_kind)
    (init : Task -> TaskCliJSON) (play_init : Play -> PlayCliJSON)
    (filter_tagged_tasks : Play -> Block -> Block) (has_tasks : Block -> bool)
    (get_hosts : list string -> list string) (str_of_hosts : list string -> string)
    (realpath_dirname : string -> string) (args : list string)
    (entries : list PlaybookEntry) :
  listhosts options = false ->
  Forall (fun p =>
            Forall (fun play => List.length (nodup string_dec (play_tags play)) <= 1)
              (entry_plays p)) entries ->
  run seed1 options fs init play_init filter_tagged_tasks has_tasks get_hosts
    str_of_hosts realpath_dirname args (inl entries) =
  run seed2 options fs init play_init filter_tagged_tasks has_tasks get_hosts
    str_of_hosts realpath_dirname args (inl entries).
Proof.
  intros Hh Hall. unfold run.
  destruct (check_playbooks fs args); [|reflexivity].
  destruct (listtasksjson options) eqn:Hj.
  - now rewrite !list_playbooks_json by exact Hj.
  - rewrite !list_playbooks_text by exact Hj. f_equal. f_equal.
    induction Hall as [|p rest Hp _ IH]; simpl; [reflexivity|].
    rewrite IH. f_equal. unfold Closed.text_entry. f_equal.
    generalize 0 as idx.
    induction Hp as [|play plays Hplay _ IHp]; intros idx; [reflexivity|].
    cbn [Closed.text_plays]. rewrite IHp. f_equal. now apply text_play_small_tags.
Qed.

Lemma text_output_fixed_for_single_tags_witness :
  Sample.run_sample seed_insertion Sample.opts_tasks_tags ["site.yml"%string]
    ["p"; "p"]%string [Sample.nested_block] =
  Sample.run_sample seed_reversed Sample.opts_tasks_tags ["site.yml"%string]
    ["p"; "p"]%string [Sample.nested_block].
Proof.
  apply text_output_fixed_for_single_tags; [reflexivity|].
  repeat constructor.
Defined.

(** ** How traversals compose *)

(** X20. Nesting does not show: a block nested anywhere in a tree lists
    exactly as if its items stood in its place in the enclosing block,
    whatever its own tags. *)
Theorem nested_block_lists_inline
    (seed : HashSeed) (options : Options) (init : Task -> TaskCliJSON)
    (mytags : PySet.t) (ctx : list Spec.frame) (tg tg' : list string)
    (before inner after : list BlockItem) (at0 : PySet.t) :
  _process_block seed options init mytags
    (mkBlock tg (Spec.wrap ctx (before ++ ItemBlock (mkBlock tg' inner) :: after))) at0 =
  _process_block seed options init mytags
    (mkBlock tg (Spec.wrap ctx (before ++ inner ++ after))) at0.
Proof.
  rewrite !process_block_walked, !emitted_unfold. f_equal.
  apply item_emitted_wrap.
  now rewrite !item_emitted_app, item_emitted_block, emitted_unfold.
Qed.

(** X21. Traversals chain: listing the items [l1 ++ l2] of a block is
    listing [l1], then [l2] with the tags seen so far; the texts and the
    task lists are concatenated.  The loop over the blocks of a play
    chains in the same way. *)
Theorem traversal_chains
    (seed : HashSeed) (options : Options) (init : Task -> TaskCliJSON)
    (filter_tagged_tasks : Play -> Block -> Block) (has_tasks : Block -> bool)
    (mytags : PySet.t) :
  (forall tg l1 l2 at0,
      _process_block seed options init mytags (mkBlock tg (l1 ++ l2)) at0 =
      let '(m1, t1, a1) := _process_block seed options init mytags (mkBlock tg l1) at0 in
      let '(m2, t2, a2) := _process_block seed options init mytags (mkBlock tg l2) a1 in
      ((m1 ++ m2)%string, t1 ++ t2, a2))
  /\
  (forall play bs1 bs2 msg tl at0,
      compile_loop seed options init filter_tagged_tasks has_tasks mytags play
        (bs1 ++ bs2) msg tl at0 =
      let '(m1, t1, a1) :=
        compile_loop seed options init filter_tagged_tasks has_tasks mytags play
          bs1 msg tl at0 in
      compile_loop seed options init filter_tagged_tasks has_tasks mytags play
        bs2 m1 t1 a1).
Proof.
  split.
  - intros tg l1 l2 at0.
    rewrite !process_block_walked, !emitted_unfold, item_emitted_app, walked_app.
    unfold Loop.walked. cbn [String.append app]. rewrite process_block_walked.
    rewrite emitted_unfold. unfold Loop.walked. reflexivity.
  - intros play bs1 bs2 msg tl at0.
    rewrite !compile_loop_walked. unfold Spec.kept_blocks.
    rewrite map_app, filter_app, flat_map_app, walked_app.
    destruct (Loop.walked seed options init mytags _ msg tl at0) as [[m1 t1] a1].
    now rewrite compile_loop_walked.
Qed.

(** ** Effective tags *)

Lemma has_tag_In (l : list string) (x : string) : Loader.has_tag l x = true <-> In x l.
Proof.
  unfold Loader.has_tag. rewrite existsb_exists. split.
  - intros (y & Hy & E). apply String.eqb_eq in E. now subst.
  - intros H. exists x. split; [exact H | apply String.eqb_refl].
Qed.

Lemma leaves_with_path_unfold (anc tg : list string) (items : list BlockItem) :
  Spec.leaves_with_path anc (mkBlock tg items) =
  flat_map (fun it => match it with
                      | ItemTask t => [(anc ++ tg, t)]
                      | ItemBlock b' => Spec.leaves_with_path (anc ++ tg) b'
                      end) items.
Proof.
  simpl. induction items as [|[t|b'] rest IH]; simpl; [reflexivity| |]; now rewrite IH.
Qed.

Lemma leaves_with_path_tasks (b : Block) :
  forall anc, map snd (Spec.leaves_with_path anc b) = Spec.dfs_preorder b.
Proof.
  induction b as [tg items IH] using Block_tree_ind. intros anc.
  rewrite leaves_with_path_unfold, dfs_preorder_unfold.
  induction IH as [|it rest Hit _ IHrest]; [reflexivity|].
  destruct it as [t|b']; simpl.
  - now rewrite IHrest.
  - rewrite map_app, IHrest. simpl in Hit. now rewrite Hit.
Qed.

(** With the tags of the blocks among them, the tags of a task and those
    of the play make up the effective tags. *)
Lemma effective_tags_inherited (ptags anc : list string) (t : Task) :
  forallb (Loader.has_tag (tags t)) anc = true ->
  Spec.sorted_union [ptags; tags t] = Spec.effective_tags ptags anc t.
Proof.
  intros H. rewrite forallb_forall in H.
  unfold Spec.effective_tags, Spec.sorted_union.
  apply SortFacts.sort_set_eq; try apply NoDup_nodup.
  intros x. rewrite !nodup_In. simpl. rewrite app_nil_r, !in_app_iff. split.
  - intros [Hx|Hx]; auto.
  - intros [Hx|[Hx|Hx]]; auto. right. apply has_tag_In. now apply H.
Qed.

Lemma effective_lines (options : Options) (ptags : list string)
    (L : list (list string * Task)) :
  forallb (fun at_ : list string * Task => forallb (Loader.has_tag (tags (snd at_))) (fst at_))
    L = true ->
  map (fun t => Spec.task_line options (Spec.sorted_union [ptags; tags t]) t)
    (filter (fun t => negb (Spec.is_control t)) (map snd L)) =
  map (fun at_ : list string * Task =>
         Spec.task_line options (Spec.effective_tags ptags (fst at_) (snd at_)) (snd at_))
    (filter (fun at_ : list string * Task => negb (Spec.is_control (snd at_))) L).
Proof.
  induction L as [|[anc t] L IH]; [reflexivity|].
  cbn [forallb map filter fst snd]. intros H. apply andb_prop in H. destruct H as [Ht HL].
  destruct (negb (Spec.is_control t)); cbn [map fst snd].
  - now rewrite (effective_tags_inherited ptags anc t Ht), IH.
  - now apply IH.
Qed.

Lemma inherit_unfold (anc tg : list string) (items : list BlockItem) :
  Loader.inherit anc (mkBlock tg items) =
  mkBlock tg
    (map (fun it => match it with
                    | ItemTask t => ItemTask (Loader.with_tags t (tags t ++ (anc ++ tg)))
                    | ItemBlock b' => ItemBlock (Loader.inherit (anc ++ tg) b')
                    end) items).
Proof.
  simpl. f_equal.
  induction items as [|[t|b'] rest IH]; simpl; [reflexivity| |]; now rewrite IH.
Qed.

Lemma leaves_inherit (d : Block) :
  forall anc,
    Spec.leaves_with_path anc (Loader.inherit anc d) =
    map (fun at_ : list string * Task =>
           (fst at_, Loader.with_tags (snd at_) (tags (snd at_) ++ fst at_)))
      (Spec.leaves_with_path anc d).
Proof.
  induction d as [tg items IH] using Block_tree_ind. intros anc.
  rewrite inherit_unfold, !leaves_with_path_unfold.
  induction IH as [|it rest Hit _ IHrest]; [reflexivity|].
  destruct it as [t|b']; cbn [map flat_map].
  - now rewrite IHrest.
  - rewrite map_app, IHrest. simpl in Hit. now rewrite Hit.
Qed.

Lemma inherit_tags_inherited (d : Block) (anc : list string) :
  Loader.tags_inherited anc (Loader.inherit anc d) = true.
Proof.
  unfold Loader.tags_inherited. rewrite leaves_inherit.
  apply forallb_forall. intros at_ Hin. apply in_map_iff in Hin.
  destruct Hin as ([a t] & <- & _). simpl.
  apply forallb_forall. intros x Hx. apply has_tag_In, in_or_app. now right.
Qed.

Lemma effective_tags_with_tags (ptags anc : list string) (t : Task) :
  Spec.effective_tags ptags anc (Loader.with_tags t (tags t ++ anc)) =
  Spec.effective_tags ptags anc t.
Proof.
  unfold Spec.effective_tags, Spec.sorted_union.
  apply SortFacts.sort_set_eq; try apply NoDup_nodup.
  intros x. rewrite !nodup_In. simpl. rewrite !app_nil_r, !in_app_iff. tauto.
Qed.

Lemma effective_lines_inherit (options : Options) (ptags : list string)
    (L : list (list string * Task)) :
  map (fun at_ : list string * Task =>
         Spec.task_line options (Spec.effective_tags ptags (fst at_) (snd at_)) (snd at_))
    (filter (fun at_ : list string * Task => negb (Spec.is_control (snd at_)))
       (map (fun at_ : list string * Task =>
               (fst at_, Loader.with_tags (snd at_) (tags (snd at_) ++ fst at_))) L)) =
  map (fun at_ : list string * Task =>
         Spec.task_line options (Spec.effective_tags ptags (fst at_) (snd at_)) (snd at_))
    (filter (fun at_ : list string * Task => negb (Spec.is_control (snd at_))) L).
Proof.
  induction L as [|[anc t] L IH]; [reflexivity|].
  cbn [map filter fst snd].
  change (Spec.is_control (Loader.with_tags t (tags t ++ anc))) with (Spec.is_control t).
  destruct (negb (Spec.is_control t)); cbn [map fst snd]; [|exact IH].
  rewrite effective_tags_with_tags, IH. reflexivity.
Qed.

Lemma process_block_effective
    (seed : HashSeed) (options : Options) (init : Task -> TaskCliJSON)
    (ptags : list string) (b : Block) (at0 : PySet.t) :
  Loader.tags_inherited [] b = true ->
  fst (fst (_process_block seed options init (PySet.of_list seed ptags) b at0)) =
  (if list_any_tasks options
   then Spec.lines
          (map (fun at_ : list string * Task =>
                  Spec.task_line options
                    (Spec.effective_tags ptags (fst at_) (snd at_)) (snd at_))
             (filter (fun at_ : list string * Task => negb (Spec.is_control (snd at_)))
                (Spec.leaves_with_path [] b)))
   else ""%string).
Proof.
  intros H. rewrite process_block_walked. unfold Loop.walked, Loop.task_text. cbn [fst].
  destruct (list_any_tasks options); [|apply lines_empty].
  cbn [String.append]. f_equal.
  rewrite <- (effective_lines options ptags _ H), leaves_with_path_tasks.
  apply map_ext. intros t. now rewrite cur_tags_sorted_union.
Qed.

(** C3. For every task that the traversal lists, the tags shown on its
    line are the effective tags: the union of the tags of the play, of the
    tags of every block on the path of the task and of the tags of the
    task, without duplicates and in sorted order.  The listing computes
    the sorted union of the tags of the play and of the [tags] of the
    task; that is the effective tags for every tree in which the [tags]
    of a task hold the tags of the blocks on its path, as they do in a
    compiled tree, and so for the compiled tree of every tree of
    declarations. *)
Theorem shown_tags_are_effective_tags
    (seed : HashSeed) (options : Options) (init : Task -> TaskCliJSON)
    (ptags : list string) :
  (forall b at0,
      Loader.tags_inherited [] b = true ->
      fst (fst (_process_block seed options init (PySet.of_list seed ptags) b at0)) =
      (if list_any_tasks options
       then Spec.lines
              (map (fun at_ : list string * Task =>
                      Spec.task_line options
                        (Spec.effective_tags ptags (fst at_) (snd at_)) (snd at_))
                 (filter (fun at_ : list string * Task => negb (Spec.is_control (snd at_)))
                    (Spec.leaves_with_path [] b)))
       else ""%string))
  /\
  (forall d at0,
      fst (fst (_process_block seed options init (PySet.of_list seed ptags)
                  (Loader.inherit [] d) at0)) =
      (if list_any_tasks options
       then Spec.lines
              (map (fun at_ : list string * Task =>
                      Spec.task_line options
                        (Spec.effective_tags ptags (fst at_) (snd at_)) (snd at_))
                 (filter (fun at_ : list string * Task => negb (Spec.is_control (snd at_)))
                    (Spec.leaves_with_path [] d)))
       else ""%string))
  /\
  (forall anc t,
      StronglySorted PyStr.le (Spec.effective_tags ptags anc t)
      /\ NoDup (Spec.effective_tags ptags anc t)
      /\ forall x, In x (Spec.effective_tags ptags anc t) <->
                   In x ptags \/ In x anc \/ In x (tags t)).
Proof.
  split; [|split].
  - intros b at0 H. now apply process_block_effective.
  - intros d at0.
    rewrite (process_block_effective seed options init ptags (Loader.inherit [] d) at0
               (inherit_tags_inherited d [])).
    destruct (list_any_tasks options); [|reflexivity].
    now rewrite leaves_inherit, effective_lines_inherit.
  - intros anc t. unfold Spec.effective_tags.
    destruct (sorted_union_spec [ptags; anc; tags t]) as (Hs & Hn & Hin).
    split; [exact Hs|]. split; [exact Hn|].
    intros x. rewrite Hin. split.
    + intros (l & [<-|[<-|[<-|[]]]] & Hx); auto.
    + intros [Hx|[Hx|Hx]];
        [exists ptags | exists anc | exists (tags t)]; simpl; auto.
Qed.

(** In a play tagged "p", the task of a block tagged "b" that declares
    the tag "a" is shown with the tags a, b and p. *)
Lemma shown_tags_are_effective_tags_witness :
  fst (fst (_process_block seed_reversed Sample.opts_tasks Sample.task_summary
              (PySet.of_list seed_reversed ["p"%string])
              (mkBlock ["b"%string]
                 [ItemTask (Sample.task "shell" (Some "restart"%string)
                              ["a"; "b"; "p"]%string)])
              (PySet.empty seed_reversed))) =
  ("      restart" ++ PyStr.tab ++ "TAGS: [a, b, p]" ++ PyStr.nl)%string.
Proof.
  rewrite (proj1 (shown_tags_are_effective_tags seed_reversed Sample.opts_tasks
                    Sample.task_summary ["p"%string])
             (mkBlock ["b"%string]
                [ItemTask (Sample.task "shell" (Some "restart"%string)
                             ["a"; "b"; "p"]%string)])
             (PySet.empty seed_reversed) eq_refl).
  reflexivity.
Defined.

Example compiled_block_shows_block_tag :
  fst (fst (_process_block seed_insertion Sample.opts_tasks Sample.task_summary
              (PySet.of_list seed_insertion ["p"%string])
              (Loader.inherit [] Sample.tagged_block) (PySet.empty seed_insertion))) =
  ("      restart" ++ PyStr.tab ++ "TAGS: [a, b, p]" ++ PyStr.nl)%string.
Proof. reflexivity. Qed.

(** ** Values without a projection, in the document *)

Lemma mapM_map_spec (A B : Type) (f : A -> result B) (g : A -> B) (l : list A) :
  (forall x, In x l -> f x = Ok (g x)) -> mapM f l = Ok (map g l).
Proof.
  induction l as [|x l IH]; intros H; simpl; [reflexivity|].
  rewrite (H x (or_introl eq_refl)), IH; [reflexivity|].
  intros y Hy. apply H. now right.
Qed.

Lemma encoding_obj (d : list (string * pyval)) :
  Reference.encoding (PObj (Some (PDict d))) =
  Reference.encoding (PDict (filter (fun kv => negb (is_None (snd kv))) d)).
Proof.
  simpl. f_equal.
  induction d as [|kv d IH]; simpl; [reflexivity|].
  destruct (is_None (snd kv)); simpl; now rewrite IH.
Qed.

(** The encoder produces the document read off the value. *)
Lemma dumps_encoding (n : nat) :
  forall v, pysize v <= n -> Spec.repr_ok v = true -> dumps v = Ok (Reference.encoding v).
Proof.
  induction n as [|n IH]; intros v Hn Hv.
  - pose proof (pysize_pos v). lia.
  - destruct v as [| | | |l|d|[r|]]; try reflexivity.
    + rewrite dumps_list. simpl in Hn, Hv. rewrite forallb_forall in Hv.
      rewrite (mapM_map_spec dumps Reference.encoding); [reflexivity|].
      intros x Hx. apply IH; [|now apply Hv]. apply pysize_list_In in Hx. lia.
    + rewrite dumps_dict. simpl in Hn, Hv. rewrite forallb_forall in Hv.
      rewrite (mapM_map_spec _ (fun kv => (fst kv, Reference.encoding (snd kv))));
        [reflexivity|].
      intros kv Hkv. rewrite IH; [reflexivity| |now apply Hv].
      apply pysize_dict_In in Hkv. lia.
    + rewrite dumps_obj.
      destruct r as [| | | | |d|]; simpl in Hv; try discriminate; [reflexivity|].
      rewrite encoding_obj. simpl default. unfold bind. apply IH.
      * pose proof (pysize_filter (fun kv => negb (is_None (snd kv))) d).
        simpl in *. lia.
      * simpl. apply forallb_forall. intros kv Hkv.
        apply filter_In in Hkv. destruct Hkv as [Hin _].
        rewrite forallb_forall in Hv. now apply Hv.
Qed.

Lemma Forall2_keyed_app (d1 d2 : list (string * pyval)) (j1 j2 : list (string * json)) :
  Forall2 (fun kv kj => fst kj = fst kv /\ dumps (snd kv) = Ok (snd kj)) d1 j1 ->
  Forall2 (fun kv kj => fst kj = fst kv /\ dumps (snd kv) = Ok (snd kj)) d2 j2 ->
  forall k,
    Forall2 (fun kv kj => fst kj = fst kv /\ dumps (snd kv) = Ok (snd kj))
      (d1 ++ (k, PObj None) :: d2) (j1 ++ (k, JNull) :: j2).
Proof.
  intros H1 H2 k. apply Forall2_app; [exact H1|].
  constructor; [now split | exact H2].
Qed.

Lemma dict_slot (k : string) (pre post : list (string * pyval))
    (jpre jpost : list (string * json)) :
  dumps (PDict pre) = Ok (JObj jpre) ->
  dumps (PDict post) = Ok (JObj jpost) ->
  dumps (PDict (pre ++ (k, PObj None) :: post)) = Ok (JObj (jpre ++ (k, JNull) :: jpost)).
Proof.
  intros H1 H2.
  apply dumps_dict_Forall2 in H1. destruct H1 as (j1 & [= <-] & H1).
  apply dumps_dict_Forall2 in H2. destruct H2 as (j2 & [= <-] & H2).
  apply dumps_dict_Forall2. eexists. split; [reflexivity|].
  now apply Forall2_keyed_app.
Qed.

(** An object that holds, under the key "k", a value without a
    projection is encoded with that key and the value [null]; the
    document is not the one of the object without the attribute. *)
Lemma unknown_value_keeps_its_key :
  dumps (PObj (Some (PDict [("name"%string, PStr "x"); ("k"%string, PObj None)]))) =
  Ok (JObj [("name"%string, JStr "x"); ("k"%string, JNull)])
  /\ dumps (PObj (Some (PDict [("name"%string, PStr "x"); ("k"%string, PObj None)]))) <>
     dumps (PObj (Some (PDict [("name"%string, PStr "x")])))
  /\ dumps (PList [PStr "x"; PObj None]) <> dumps (PList [PStr "x"]).
Proof.
  split; [reflexivity|]. split; vm_compute; discriminate.
Qed.

(** C9, amended. A value without a projection, that is an object with no
    [json_cli_repr] that the JSON encoder cannot encode by itself, is not
    left out of the output: [default] returns [None] for it without
    raising, and the encoder writes [null] where the value stands.  In a
    list the slot stays, in a plain dict and in the dict of a projection
    the key stays, with [null], and everything around it is encoded as
    without it.  The document as a whole is the one read off the value
    ([Reference.encoding]) whenever the projections that exist return a
    dict or [None], whatever values without a projection it holds, and
    the only exception the encoder raises is the AttributeError of
    [remove_nulls] on a projection of another kind. *)
Theorem unknown_values_become_null :
  default (PObj None) = Ok PNone
  /\ (forall v, Spec.repr_ok v = true -> dumps v = Ok (Reference.encoding v))
  /\ (forall v e, dumps v = Raise e -> e = AttributeError)
  /\ (forall pre post jpre jpost,
        dumps (PList pre) = Ok (JArr jpre) ->
        dumps (PList post) = Ok (JArr jpost) ->
        dumps (PList (pre ++ PObj None :: post)) = Ok (JArr (jpre ++ JNull :: jpost)))
  /\ (forall k pre post jpre jpost,
        dumps (PDict pre) = Ok (JObj jpre) ->
        dumps (PDict post) = Ok (JObj jpost) ->
        dumps (PDict (pre ++ (k, PObj None) :: post)) =
        Ok (JObj (jpre ++ (k, JNull) :: jpost)))
  /\ (forall k pre post jpre jpost,
        dumps (PObj (Some (PDict pre))) = Ok (JObj jpre) ->
        dumps (PObj (Some (PDict post))) = Ok (JObj jpost) ->
        dumps (PObj (Some (PDict (pre ++ (k, PObj None) :: post)))) =
        Ok (JObj (jpre ++ (k, JNull) :: jpost))).
Proof.
  split; [reflexivity|]. split; [|split; [|split; [|split]]].
  - intros v Hv. exact (dumps_encoding v (le_n _) Hv).
  - intros v e. exact (dumps_raise v (le_n _) (e := e)).
  - intros pre post jpre jpost H1 H2.
    apply dumps_list_Forall2 in H1. destruct H1 as (j1 & [= <-] & H1).
    apply dumps_list_Forall2 in H2. destruct H2 as (j2 & [= <-] & H2).
    apply dumps_list_Forall2. eexists. split; [reflexivity|].
    apply Forall2_app; [exact H1|]. constructor; [reflexivity | exact H2].
  - intros k pre post jpre jpost. apply dict_slot.
  - intros k pre post jpre jpost. rewrite !dumps_obj. cbn [default remove_nulls bind].
    rewrite filter_app. cbn [filter snd is_None negb]. apply dict_slot.
Qed.

(** A task summary to which an attribute "k" without a projection is
    added between its name and its path. *)
Lemma unknown_values_become_null_witness :
  dumps (PObj (Some (PDict ([("name"%string, PStr "x")]
                             ++ ("k"%string, PObj None)
                             :: [("path"%string, PNone); ("tags"%string, PList [])])))) =
  Ok (JObj ([("name"%string, JStr "x")]
              ++ ("k"%string, JNull) :: [("tags"%string, JArr [])])).
Proof.
  apply (proj2 (proj2 (proj2 (proj2 (proj2 unknown_values_become_null))))); reflexivity.
Defined.
